(** * Reconciliation of compute routes and addresses

    A shallow embedding of the two resource controllers of the provider,
    [resource_compute_route.go] (hand written) and the generated
    [resource_compute_address.go], together with the properties the design
    document states about them.

    The controllers are imperative: they mutate a [*schema.ResourceData] and
    talk to the remote control plane.  Both are modelled by a small state and
    error monad [M]; the state holds the resource data and the trace of the
    remote calls made so far, the answers of the control plane are given by a
    record of oracles [Api]. *)

From Stdlib Require Import ZArith String Ascii List Bool.
From stdpp Require Import base strings gmap list.

Open Scope string_scope.
Open Scope Z_scope.

(** ** Values, errors, results *)

#[local] Set Warnings "-register-all".

(** [interface{}] values that travel through the declared state and the
    decoded JSON answers. *)
Inductive Value :=
| VNil
| VString (s : string)
| VInt (n : Z)
| VBool (b : bool)
| VList (l : list Value).

(** [reflect.DeepEqual] on these values. *)
Fixpoint DeepEqual (a b : Value) : bool :=
  match a, b with
  | VNil, VNil => true
  | VString s, VString t => String.eqb s t
  | VInt n, VInt m => Z.eqb n m
  | VBool x, VBool y => Bool.eqb x y
  | VList l, VList k =>
      (fix all2 (l k : list Value) : bool :=
         match l, k with
         | [], [] => true
         | x :: l', y :: k' => DeepEqual x y && all2 l' k'
         | _, _ => false
         end) l k
  | _, _ => false
  end.

(** Go [error] values, by dynamic type. *)
Inductive error :=
| GoogleApiError (code : Z) (msg : string)   (* *googleapi.Error *)
| ErrorString (msg : string)                 (* fmt.Errorf, errors.New *)
| OperationError (detail : string)           (* the repository's OperationError type *)
| TimeoutError (msg : string).               (* the waiter gave up *)

(** [err.Error()]; [%s] and [%#v] of an error are both rendered by it. *)
Definition errorMessage (e : error) : string :=
  match e with
  | GoogleApiError _ msg => "googleapi: " +:+ msg
  | ErrorString msg => msg
  | OperationError detail => detail
  | TimeoutError msg => msg
  end.

(** [fmt.Errorf(prefix + "%s", err)] *)
Definition Errorf (prefix : string) (e : error) : error :=
  ErrorString (prefix +:+ errorMessage e).

Definition isNotFound (e : error) : bool :=
  match e with
  | GoogleApiError code _ => Z.eqb code 404
  | _ => false
  end.

(** What a Go call can do: return a value, return an error, or panic. *)
Inductive Res (A : Type) :=
| Ok (a : A)
| Err (e : error)
| Panic.
Arguments Ok {A} a.
Arguments Err {A} e.
Arguments Panic {A}.

(** ** The schema framework, at its interface *)

Inductive ValueType := TypeString | TypeInt | TypeBool | TypeList | TypeSet.

Record Schema := {
  Type_ : ValueType;
  Required : bool;
  Optional : bool;
  Computed : bool;
  ForceNew : bool;
  Default : option Value;
  Elem : option ValueType
}.

Definition zeroValue (t : ValueType) : Value :=
  match t with
  | TypeString => VString ""
  | TypeInt => VInt 0
  | TypeBool => VBool false
  | TypeList | TypeSet => VList []
  end.

Definition isString (v : Value) : bool :=
  match v with VString _ => true | _ => false end.

(** Whether the framework accepts [v] for a field of the given type. *)
Definition fits (s : Schema) (v : Value) : bool :=
  match v, Type_ s with
  | VNil, _ => true
  | VString _, TypeString => true
  | VInt _, TypeInt => true
  | VBool _, TypeBool => true
  | VList l, (TypeList | TypeSet) => forallb isString l
  | _, _ => false
  end.

Fixpoint lookupSchema (k : string) (m : list (string * Schema)) : option Schema :=
  match m with
  | [] => None
  | (k', s) :: m' => if String.eqb k k' then Some s else lookupSchema k m'
  end.

(** [*schema.ResourceData]: the schema it was built for, the flat field map
    and the identity. *)
Record ResourceData := {
  rd_schema : list (string * Schema);
  rd_attrs : gmap string Value;
  rd_id : string
}.

Definition Id (d : ResourceData) : string := rd_id d.

Definition SetId (id : string) (d : ResourceData) : ResourceData :=
  {| rd_schema := rd_schema d; rd_attrs := rd_attrs d; rd_id := id |}.

(** [d.Get(k)]: the stored value, else the default, else the zero value of
    the declared type. *)
Definition Get (k : string) (d : ResourceData) : Value :=
  match rd_attrs d !! k with
  | Some v => v
  | None =>
      match lookupSchema k (rd_schema d) with
      | Some s => match Default s with Some v => v | None => zeroValue (Type_ s) end
      | None => VNil
      end
  end.

Definition isZero (v : Value) : bool :=
  match v with
  | VNil => true
  | VString s => String.eqb s ""
  | VInt n => Z.eqb n 0
  | VBool b => negb b
  | VList l => match l with [] => true | _ => false end
  end.

(** [d.GetOkExists(k)]: the value and whether the field has been set. *)
Definition GetOkExists (k : string) (d : ResourceData) : Value * bool :=
  (Get k d, match rd_attrs d !! k with Some _ => true | None => false end).

(** [d.GetOk(k)]: as above, but a zero value counts as not set. *)
Definition GetOk (k : string) (d : ResourceData) : Value * bool :=
  (Get k d,
   match rd_attrs d !! k with Some v => negb (isZero v) | None => false end).

(** [d.Get(k).(string)] on a string field. *)
Definition GetString (k : string) (d : ResourceData) : string :=
  match Get k d with VString s => s | _ => "" end.

(** [d.Set(k, v)]: fails on an undeclared field or on a value that does not
    fit the declared type. *)
Definition Set_ (k : string) (v : Value) (d : ResourceData) : Res ResourceData :=
  match lookupSchema k (rd_schema d) with
  | None => Err (ErrorString ("Invalid address to set: " +:+ k))
  | Some s =>
      if fits s v
      then Ok {| rd_schema := rd_schema d;
                 rd_attrs := <[k := v]> (rd_attrs d);
                 rd_id := rd_id d |}
      else Err (ErrorString (k +:+ ": value does not fit the declared type"))
  end.

(** [*Config]: the ambient defaults. *)
Record Config := {
  Project : string;
  Region : string
}.

(** ** The remote control plane *)

(** [compute.Operation]: the handle of an asynchronous mutation;
    [Op_Error] is [op.Error], set when the finished operation failed. *)
Record Operation := {
  Op_Name : string;
  Op_Status : string;
  Op_Error : option string
}.

Record Network := { Network_SelfLink : string }.
Record Instance := { Instance_SelfLink : string }.

(** [compute.Route] *)
Record Route := {
  Name : string;
  DestRange : string;
  Network_ : string;
  NextHopInstance : string;
  NextHopIp : string;
  NextHopNetwork : string;
  NextHopGateway : string;
  Priority : Z;
  Tags : list string
}.

(** Terminal states of the operation poller. *)
Inductive PollState :=
| Succeeded
| Failed (detail : string)
| TimedOut.

(** The answers of the control plane, one oracle per call the controllers
    make: the typed client of the route controller, the transport client
    [sendRequest] of the address controller, and the state in which polling
    an operation ends. *)
Record Api := {
  NetworksGet : string -> string -> Res Network;
  InstancesGet : string -> string -> string -> Res Instance;
  RoutesInsert : string -> Route -> Res Operation;
  RoutesGet : string -> string -> Res Route;
  RoutesDelete : string -> string -> Res Operation;
  sendRequest : string -> string -> option (gmap string Value) -> Res (gmap string Value);
  poll : Operation -> PollState
}.

(** What the controller did to the outside, in order. *)
Inductive Event :=
| EvNetworksGet (project name : string)
| EvInstancesGet (project zone name : string)
| EvRoutesInsert (project : string) (r : Route)
| EvRoutesGet (project id : string)
| EvRoutesDelete (project id : string)
| EvSendRequest (method url : string) (body : option (gmap string Value))
| EvPoll (op : Operation).

Definition isPoll (e : Event) : bool :=
  match e with EvPoll _ => true | _ => false end.

(** ** The controller monad *)

Record St := {
  st_d : ResourceData;
  st_trace : list Event
}.

Definition M (A : Type) : Type := St -> Res A * St.

Definition ret {A} (a : A) : M A := fun st => (Ok a, st).

Definition bind {A B} (m : M A) (k : A -> M B) : M B :=
  fun st =>
    match m st with
    | (Ok a, st') => k a st'
    | (Err e, st') => (Err e, st')
    | (Panic, st') => (Panic, st')
    end.

Notation "'let*' x := c1 'in' c2" := (bind c1 (fun x => c2))
  (at level 10, x pattern, c1 at level 100, c2 at level 200).
Notation "c1 ;; c2" := (bind c1 (fun _ => c2))
  (at level 100, c2 at level 200, right associativity).

(** [return err] *)
Definition fail {A} (e : error) : M A := fun st => (Err e, st).

(** A pure Go call inside a controller: [v, err := f(...)] followed by
    [if err != nil { return wrap(err) }]. *)
Definition try {A} (r : Res A) (wrap : error -> error) : M A :=
  fun st =>
    match r with
    | Ok a => (Ok a, st)
    | Err e => (Err (wrap e), st)
    | Panic => (Panic, st)
    end.

Definition data : M ResourceData := fun st => (Ok (st_d st), st).

Definition modify (f : ResourceData -> ResourceData) : M unit :=
  fun st => (Ok tt, {| st_d := f (st_d st); st_trace := st_trace st |}).

Definition emit (e : Event) : M unit :=
  fun st => (Ok tt, {| st_d := st_d st; st_trace := st_trace st ++ [e] |}).

(** [if err := d.Set(k, v); err != nil { return wrap(err) }] *)
Definition dSet (k : string) (v : Value) (wrap : error -> error) : M unit :=
  fun st =>
    match Set_ k v (st_d st) with
    | Ok d' => (Ok tt, {| st_d := d'; st_trace := st_trace st |})
    | Err e => (Err (wrap e), st)
    | Panic => (Panic, st)
    end.

(** Type assertions [v.(string)], [v.(int)], [v.( *schema.Set)]: they panic
    on a value of another dynamic type. *)
Definition assertString (v : Value) : Res string :=
  match v with VString s => Ok s | _ => Panic end.

Definition assertInt (v : Value) : Res Z :=
  match v with VInt n => Ok n | _ => Panic end.

Definition assertSet (v : Value) : Res (list Value) :=
  match v with VList l => Ok l | _ => Panic end.

Fixpoint assertStrings (l : list Value) : Res (list string) :=
  match l with
  | [] => Ok []
  | v :: l' =>
      match assertString v, assertStrings l' with
      | Ok s, Ok r => Ok (s :: r)
      | _, _ => Panic
      end
  end.

(** Run a controller on a resource with an empty trace. *)
Definition run {A} (m : M A) (d : ResourceData) : Res A * St :=
  m {| st_d := d; st_trace := [] |}.

Definition result {A} (r : Res A * St) : Res A := fst r.
Definition final {A} (r : Res A * St) : ResourceData := st_d (snd r).
Definition trace {A} (r : Res A * St) : list Event := st_trace (snd r).

(** ** The operation poller *)

(** Modelled from the spec: [OperationWaiter] and its [Conf().WaitForState()]
    are not part of the sources at hand.  Following section 4.2, waiting ends
    in one of three states; a timeout is reported as an error of the wait
    itself, a failed operation comes back as a finished operation that
    carries its error, a success as a finished operation without one. *)
Definition WaitForState (api : Api) (op : Operation) : M Operation :=
  emit (EvPoll op) ;;
  match poll api op with
  | Succeeded =>
      ret {| Op_Name := Op_Name op; Op_Status := "DONE"; Op_Error := None |}
  | Failed detail =>
      ret {| Op_Name := Op_Name op; Op_Status := "DONE"; Op_Error := Some detail |}
  | TimedOut => fail (TimeoutError "timeout while waiting for state to become 'DONE'")
  end.

(** Modelled from the spec: [computeOperationWaitTime] is not part of the
    sources at hand.  It runs the poller of section 4.2 and folds its outcome
    into one error value: nil on success, the operation's own error as an
    [OperationError] on failure, the timeout otherwise. *)
Definition computeOperationWaitTime (api : Api) (op : Operation) (activity : string)
  : M (option error) :=
  fun st =>
    match WaitForState api op st with
    | (Ok op', st') =>
        match Op_Error op' with
        | Some detail => (Ok (Some (OperationError detail)), st')
        | None => (Ok None, st')
        end
    | (Err e, st') => (Ok (Some e), st')
    | (Panic, st') => (Panic, st')
    end.

(** ** The route controller: resource_compute_route.go *)

Definition plain (ty : ValueType) (required optional forceNew : bool) : Schema :=
  {| Type_ := ty; Required := required; Optional := optional; Computed := false;
     ForceNew := forceNew; Default := None; Elem := None |}.

Definition routeSchema : list (string * Schema) :=
  [ ("name", plain TypeString true false true);
    ("dest_range", plain TypeString true false true);
    ("network", plain TypeString true false true);
    ("next_hop_ip", plain TypeString false true true);
    ("next_hop_instance", plain TypeString false true true);
    ("next_hop_instance_zone", plain TypeString false true true);
    ("next_hop_gateway", plain TypeString false true true);
    ("next_hop_network", plain TypeString false true true);
    ("priority", plain TypeInt true false true);
    ("tags", {| Type_ := TypeSet; Required := false; Optional := true;
                Computed := false; ForceNew := false; Default := None;
                Elem := Some TypeString |}) ].

Definition resourceComputeRouteRead (api : Api) (config : Config) : M unit :=
  let* d := data in
  emit (EvRoutesGet (Project config) (Id d)) ;;
  let* _ := try (RoutesGet api (Project config) (Id d))
                (Errorf "Error reading route: ") in
  ret tt.

Definition resourceComputeRouteCreate (api : Api) (config : Config) : M unit :=
  let* d := data in
  (* Look up the network to attach the route to *)
  let* networkName := try (assertString (Get "network" d)) id in
  emit (EvNetworksGet (Project config) networkName) ;;
  let* network := try (NetworksGet api (Project config) networkName)
                      (Errorf "Error reading network: ") in
  (* Next hop data *)
  let* nextHopIp :=
    (let '(v, ok) := GetOk "next_hop_ip" d in
     if ok then try (assertString v) id else ret "") in
  let* nextHopGateway :=
    (let '(v, ok) := GetOk "next_hop_gateway" d in
     if ok then try (assertString v) id else ret "") in
  let* nextHopInstance :=
    (let '(v, ok) := GetOk "next_hop_instance" d in
     if ok then
       let* zone := try (assertString (Get "next_hop_instance_zone" d)) id in
       let* name := try (assertString v) id in
       emit (EvInstancesGet (Project config) zone name) ;;
       let* nextInstance := try (InstancesGet api (Project config) zone name)
                                (Errorf "Error reading instance: ") in
       ret (Instance_SelfLink nextInstance)
     else ret "") in
  let* nextHopNetwork :=
    (let '(v, ok) := GetOk "next_hop_network" d in
     if ok then
       let* name := try (assertString v) id in
       emit (EvNetworksGet (Project config) name) ;;
       let* nextNetwork := try (NetworksGet api (Project config) name)
                               (Errorf "Error reading network: ") in
       ret (Network_SelfLink nextNetwork)
     else ret "") in
  (* Tags *)
  let* v := try (assertSet (Get "tags" d)) id in
  let* tags := try (assertStrings v) id in
  (* Build the route parameter *)
  let* name := try (assertString (Get "name" d)) id in
  let* destRange := try (assertString (Get "dest_range" d)) id in
  let* priority := try (assertInt (Get "priority" d)) id in
  let route := {| Name := name; DestRange := destRange;
                  Network_ := Network_SelfLink network;
                  NextHopInstance := nextHopInstance; NextHopIp := nextHopIp;
                  NextHopNetwork := nextHopNetwork; NextHopGateway := nextHopGateway;
                  Priority := priority; Tags := tags |} in
  emit (EvRoutesInsert (Project config) route) ;;
  let* op := try (RoutesInsert api (Project config) route)
                 (Errorf "Error creating route: ") in
  (* It probably maybe worked, so store the ID now *)
  modify (SetId (Name route)) ;;
  (* Wait for the operation to complete *)
  let* op := (fun st => match WaitForState api op st with
                        | (Err e, st') => (Err (Errorf "Error waiting for route to create: " e), st')
                        | r => r
                        end) in
  match Op_Error op with
  | Some detail =>
      (* The resource didn't actually create *)
      modify (SetId "") ;;
      fail (OperationError detail)
  | None => resourceComputeRouteRead api config
  end.

Definition resourceComputeRouteDelete (api : Api) (config : Config) : M unit :=
  let* d := data in
  (* Delete the route *)
  emit (EvRoutesDelete (Project config) (Id d)) ;;
  let* op := try (RoutesDelete api (Project config) (Id d))
                 (Errorf "Error deleting route: ") in
  (* Wait for the operation to complete *)
  let* op := (fun st => match WaitForState api op st with
                        | (Err e, st') => (Err (Errorf "Error waiting for route to delete: " e), st')
                        | r => r
                        end) in
  match Op_Error op with
  | Some detail => fail (OperationError detail)
  | None => modify (SetId "")
  end.

(** ** Helpers of the generated controllers *)

(** [strings.Split(s, "/")] *)
Fixpoint splitSlash (s : string) : list string :=
  match s with
  | EmptyString => [""]
  | String c s' =>
      if Ascii.eqb c "/"
      then "" :: splitSlash s'
      else match splitSlash s' with
           | x :: xs => String c x :: xs
           | [] => [String c ""]
           end
  end.

Definition lastSegment (s : string) : string := List.last (splitSlash s) "".

Definition joinSlash (l : list string) : string := String.concat "/" l.

(** Modelled from the spec: [getProject] is not part of the sources at hand.
    The project of a resource is its own [project] field when set, else the
    ambient default of the configuration (section 6, context provider), else
    an error. *)
Definition getProject (d : ResourceData) (config : Config) : Res string :=
  match GetOk "project" d with
  | (VString p, true) => Ok p
  | _ =>
      if negb (String.eqb (Project config) "")
      then Ok (Project config)
      else Err (ErrorString "project: required field is not set")
  end.

(** Modelled from the spec: [getRegion] is not part of the sources at hand.
    As [getProject], for the region; a region given as a self-link counts by
    its short name. *)
Definition getRegion (d : ResourceData) (config : Config) : Res string :=
  match GetOk "region" d with
  | (VString r, true) => Ok (lastSegment r)
  | _ =>
      if negb (String.eqb (Region config) "")
      then Ok (Region config)
      else Err (ErrorString "region: required field is not set")
  end.

(** Modelled from the spec: the template substitution inside [replaceVars],
    which is not part of the sources at hand.  Every [{{field}}] placeholder
    is replaced by what [lookup] gives for the field; [var] is the name being
    read when the scan is inside a placeholder. *)
Fixpoint substitute (lookup : string -> Res string) (var : option string) (s : string)
  : Res string :=
  match var, s with
  | None, String "{" (String "{" rest) => substitute lookup (Some "") rest
  | None, String c rest =>
      match substitute lookup None rest with
      | Ok r => Ok (String c r)
      | other => other
      end
  | None, EmptyString => Ok ""
  | Some name, String "}" (String "}" rest) =>
      match lookup name with
      | Ok v =>
          match substitute lookup None rest with
          | Ok r => Ok (v +:+ r)
          | other => other
          end
      | other => other
      end
  | Some name, String c rest => substitute lookup (Some (name +:+ String c "")) rest
  | Some name, EmptyString => Ok ("{{" +:+ name)
  end.

(** Modelled from the spec: [replaceVars] is not part of the sources at hand.
    Section 3 (ResourceIdentity) and section 6: the placeholders of a template
    are substituted from the declared state and the context; [project] and
    [region] fall back to the ambient defaults, any other field that is not
    set is substituted by the empty string. *)
Definition replaceVars (d : ResourceData) (config : Config) (linkTmpl : string)
  : Res string :=
  substitute
    (fun m =>
       if String.eqb m "project" then getProject d config
       else if String.eqb m "region" then getRegion d config
       else match GetOk m d with
            | (VString v, true) => Ok v
            | _ => Ok ""
            end)
    None linkTmpl.

(** Modelled from the spec: [handleNotFoundError] is not part of the sources
    at hand.  Section 7: a NotFound answer is special-cased, on Read it
    becomes "resource absent" (the identity is dropped, no hard failure), on
    Delete it is a success; any other error is returned to the caller. *)
Definition handleNotFoundError (err : error) (resource : string) : M unit :=
  if isNotFound err
  then modify (SetId "") ;; ret tt
  else fail (Errorf ("Error reading " +:+ resource +:+ ": ") err).

(** Modelled from the spec: [Convert] is not part of the sources at hand.
    Section 6 (operation source): the raw answer of a mutating call
    deserializes into an operation handle; a field of the wrong JSON type
    makes the conversion fail. *)
Definition Convert (res : gmap string Value) : Res Operation :=
  let str (k : string) : Res string :=
    match res !! k with
    | None | Some VNil => Ok ""
    | Some (VString s) => Ok s
    | Some _ => Err (ErrorString ("json: cannot unmarshal field " +:+ k))
    end in
  match str "name", str "status", res !! "error" with
  | Ok n, Ok s, (None | Some VNil) =>
      Ok {| Op_Name := n; Op_Status := s; Op_Error := None |}
  | Ok n, Ok s, Some (VString e) =>
      Ok {| Op_Name := n; Op_Status := s; Op_Error := Some e |}
  | Ok _, Ok _, Some _ => Err (ErrorString "json: cannot unmarshal field error")
  | Err e, _, _ => Err e
  | _, Err e, _ => Err e
  | _, _, _ => Panic
  end.

(** Modelled from the spec: [isEmptyValue] is not part of the sources at
    hand.  Section 9: one emptiness predicate per kind of value, the empty
    string, the empty list or set, the number zero; nil and false are the
    zero values of the two remaining kinds. *)
Definition isEmptyValue (v : Value) : bool :=
  match v with
  | VNil => true
  | VString s => String.eqb s ""
  | VInt n => Z.eqb n 0
  | VBool b => negb b
  | VList l => match l with [] => true | _ => false end
  end.

(** Modelled from the spec: [ConvertSelfLinkToV1] is not part of the sources
    at hand.  A self-link is a fully-qualified URL (glossary); the self-link
    of an object under any API version is mapped to its self-link under
    [v1], every other string is left as it is. *)
Definition ConvertSelfLinkToV1 (link : string) : string :=
  match splitSlash link with
  | scheme :: empty :: host :: compute :: version :: projects :: rest =>
      if String.eqb scheme "https:" && String.eqb empty ""
         && String.eqb compute "compute" && String.eqb projects "projects"
      then joinSlash ("https:" :: "" :: host :: "compute" :: "v1" :: "projects" :: rest)
      else link
  | _ => link
  end.

(** Modelled from the spec: [NameFromSelfLinkStateFunc] is not part of the
    sources at hand.  Section 4.1: a self-link is canonicalized into the short
    name of the object, its last path segment; the argument is asserted to be
    a string. *)
Definition NameFromSelfLinkStateFunc (v : Value) : Res Value :=
  match assertString v with
  | Ok s => Ok (VString (lastSegment s))
  | Err e => Err e
  | Panic => Panic
  end.

(** Modelled from the spec: [RegionalFieldValue], [parseRegionalFieldValue]
    and [RelativeLink] are not part of the sources at hand.  Section 4.1: a
    reference is given as a short name, a full URL or a partial path and is
    resolved into the canonical relative link; project and region come from
    the context when the input does not name them; an input of no accepted
    shape is an invalid reference. *)
Record RegionalFieldValue := {
  rf_Project : string;
  rf_Region : string;
  rf_Name : string;
  rf_resourceType : string
}.

(** Modelled from the spec: the [RelativeLink] method of a regional
    reference; an empty reference has the empty link. *)
Definition RegionalRelativeLink (f : RegionalFieldValue) : string :=
  if String.eqb (rf_Name f) "" then ""
  else "projects/" +:+ rf_Project f +:+ "/regions/" +:+ rf_Region f +:+ "/"
       +:+ rf_resourceType f +:+ "/" +:+ rf_Name f.

(** Modelled from the spec: the InvalidReferenceError of section 4.1. *)
Definition invalidReference (fieldValue : string) : error :=
  ErrorString ("invalid reference: " +:+ fieldValue).

(** Modelled from the spec: the accepted shapes of a regional reference, by
    the segments of its path. *)
Definition regionalOfPath (resourceType fieldValue : string) (path : list string)
  (d : ResourceData) (config : Config) : Res RegionalFieldValue :=
  match path with
  | [a; p; b; r; t; n] =>
      (* projects/p/regions/r/<resourceType>/n *)
      if String.eqb a "projects" && String.eqb b "regions" && String.eqb t resourceType
      then Ok {| rf_Project := p; rf_Region := r; rf_Name := n;
                 rf_resourceType := resourceType |}
      else Err (invalidReference fieldValue)
  | [b; r; t; n] =>
      (* regions/r/<resourceType>/n *)
      if String.eqb b "regions" && String.eqb t resourceType
      then match getProject d config with
           | Ok p => Ok {| rf_Project := p; rf_Region := r; rf_Name := n;
                           rf_resourceType := resourceType |}
           | Err e => Err e
           | Panic => Panic
           end
      else Err (invalidReference fieldValue)
  | [n] =>
      match getProject d config, getRegion d config with
      | Ok p, Ok r => Ok {| rf_Project := p; rf_Region := r; rf_Name := n;
                            rf_resourceType := resourceType |}
      | Err e, _ => Err e
      | _, Err e => Err e
      | _, _ => Panic
      end
  | _ => Err (invalidReference fieldValue)
  end.

(** Modelled from the spec: the path a reference is resolved by, that of a
    full URL [https://host/compute/version/path], else the segments of the
    value itself. *)
Definition referencePath (fieldValue : string) : list string :=
  match splitSlash fieldValue with
  | scheme :: empty :: host :: compute :: version :: path =>
      if String.eqb scheme "https:" && String.eqb empty "" && String.eqb compute "compute"
      then path
      else splitSlash fieldValue
  | path => path
  end.

(** Modelled from the spec: [parseRegionalFieldValue], see above; the empty
    value is a reference to nothing when [isEmptyValid]. *)
Definition parseRegionalFieldValue (resourceType fieldValue : string)
  (d : ResourceData) (config : Config) (isEmptyValid : bool) : Res RegionalFieldValue :=
  if String.eqb fieldValue "" then
    if isEmptyValid
    then Ok {| rf_Project := ""; rf_Region := ""; rf_Name := "";
               rf_resourceType := resourceType |}
    else Err (invalidReference fieldValue)
  else regionalOfPath resourceType fieldValue (referencePath fieldValue) d config.

(** Modelled from the spec: [GlobalFieldValue], [parseGlobalFieldValue] and
    its [RelativeLink], as above for objects that live directly under a
    project. *)
Record GlobalFieldValue := {
  gf_Project : string;
  gf_Name : string;
  gf_resourceType : string
}.

(** Modelled from the spec: the [RelativeLink] method of a reference to an
    object under a project. *)
Definition GlobalRelativeLink (f : GlobalFieldValue) : string :=
  if String.eqb (gf_Name f) "" then ""
  else "projects/" +:+ gf_Project f +:+ "/" +:+ gf_resourceType f +:+ "/" +:+ gf_Name f.

(** Modelled from the spec: the accepted shapes of such a reference. *)
Definition globalOfPath (resourceType fieldValue : string) (path : list string)
  (d : ResourceData) (config : Config) : Res GlobalFieldValue :=
  match path with
  | [a; p; t; n] =>
      (* projects/p/<resourceType>/n *)
      if String.eqb a "projects" && String.eqb t resourceType
      then Ok {| gf_Project := p; gf_Name := n; gf_resourceType := resourceType |}
      else Err (invalidReference fieldValue)
  | [n] =>
      match getProject d config with
      | Ok p => Ok {| gf_Project := p; gf_Name := n; gf_resourceType := resourceType |}
      | Err e => Err e
      | Panic => Panic
      end
  | _ => Err (invalidReference fieldValue)
  end.

(** Modelled from the spec: [parseGlobalFieldValue], see above. *)
Definition parseGlobalFieldValue (resourceType fieldValue : string)
  (d : ResourceData) (config : Config) (isEmptyValid : bool) : Res GlobalFieldValue :=
  if String.eqb fieldValue "" then
    if isEmptyValid
    then Ok {| gf_Project := ""; gf_Name := ""; gf_resourceType := resourceType |}
    else Err (invalidReference fieldValue)
  else globalOfPath resourceType fieldValue (referencePath fieldValue) d config.

(** ** The address controller: resource_compute_address.go *)

Definition addressSchema : list (string * Schema) :=
  [ ("name", {| Type_ := TypeString; Required := true; Optional := false;
                Computed := false; ForceNew := true; Default := None; Elem := None |});
    ("address", {| Type_ := TypeString; Required := false; Optional := true;
                   Computed := true; ForceNew := true; Default := None; Elem := None |});
    ("address_type", {| Type_ := TypeString; Required := false; Optional := true;
                        Computed := false; ForceNew := true;
                        Default := Some (VString "EXTERNAL"); Elem := None |});
    ("description", {| Type_ := TypeString; Required := false; Optional := true;
                       Computed := false; ForceNew := true; Default := None; Elem := None |});
    ("network_tier", {| Type_ := TypeString; Required := false; Optional := true;
                        Computed := true; ForceNew := true; Default := None; Elem := None |});
    ("region", {| Type_ := TypeString; Required := false; Optional := true;
                  Computed := true; ForceNew := true; Default := None; Elem := None |});
    ("subnetwork", {| Type_ := TypeString; Required := false; Optional := true;
                      Computed := true; ForceNew := true; Default := None; Elem := None |});
    ("creation_timestamp", {| Type_ := TypeString; Required := false; Optional := false;
                              Computed := true; ForceNew := false; Default := None;
                              Elem := None |});
    ("users", {| Type_ := TypeList; Required := false; Optional := false;
                 Computed := true; ForceNew := false; Default := None;
                 Elem := Some TypeString |});
    ("project", {| Type_ := TypeString; Required := false; Optional := true;
                   Computed := true; ForceNew := true; Default := None; Elem := None |});
    ("self_link", {| Type_ := TypeString; Required := false; Optional := false;
                     Computed := true; ForceNew := false; Default := None; Elem := None |}) ].

(** *** The field codec *)

Definition flattenComputeAddressAddress (v : Value) : Res Value := Ok v.

Definition flattenComputeAddressAddressType (v : Value) : Res Value :=
  match v with
  | VNil => Ok (VString "EXTERNAL")
  | VString s => if String.eqb s "" then Ok (VString "EXTERNAL") else Ok v
  | _ => Panic
  end.

Definition flattenComputeAddressCreationTimestamp (v : Value) : Res Value := Ok v.
Definition flattenComputeAddressDescription (v : Value) : Res Value := Ok v.
Definition flattenComputeAddressName (v : Value) : Res Value := Ok v.
Definition flattenComputeAddressNetworkTier (v : Value) : Res Value := Ok v.

Definition flattenComputeAddressSubnetwork (v : Value) : Res Value :=
  match v with
  | VNil => Ok v
  | VString s => Ok (VString (ConvertSelfLinkToV1 s))
  | _ => Panic
  end.

Definition flattenComputeAddressUsers (v : Value) : Res Value := Ok v.

Definition flattenComputeAddressRegion (v : Value) : Res Value :=
  match v with
  | VNil => Ok v
  | _ => NameFromSelfLinkStateFunc v
  end.

Definition expandComputeAddressAddress (v : Value) (d : ResourceData) (config : Config)
  : Res Value := Ok v.
Definition expandComputeAddressAddressType (v : Value) (d : ResourceData) (config : Config)
  : Res Value := Ok v.
Definition expandComputeAddressDescription (v : Value) (d : ResourceData) (config : Config)
  : Res Value := Ok v.
Definition expandComputeAddressName (v : Value) (d : ResourceData) (config : Config)
  : Res Value := Ok v.
Definition expandComputeAddressNetworkTier (v : Value) (d : ResourceData) (config : Config)
  : Res Value := Ok v.

Definition expandComputeAddressSubnetwork (v : Value) (d : ResourceData) (config : Config)
  : Res Value :=
  match assertString v with
  | Ok s =>
      match parseRegionalFieldValue "subnetworks" s d config true with
      | Ok f => Ok (VString (RegionalRelativeLink f))
      | Err err => Err (Errorf "Invalid value for subnetwork: " err)
      | Panic => Panic
      end
  | Err e => Err e
  | Panic => Panic
  end.

Definition expandComputeAddressRegion (v : Value) (d : ResourceData) (config : Config)
  : Res Value :=
  match assertString v with
  | Ok s =>
      match parseGlobalFieldValue "regions" s d config true with
      | Ok f => Ok (VString (GlobalRelativeLink f))
      | Err err => Err (Errorf "Invalid value for region: " err)
      | Panic => Panic
      end
  | Err e => Err e
  | Panic => Panic
  end.

(** *** Create, Read, Delete *)

(** One block of the payload construction: the expanded value [prop] of
    [field] goes under [key] when it is not empty and the field was set or
    differs from what the state holds. *)
Definition addProp (key field : string) (prop : Value) (d : ResourceData)
  (obj : gmap string Value) : gmap string Value :=
  let '(v, ok) := GetOkExists field d in
  if negb (isEmptyValue prop) && (ok || negb (DeepEqual v prop))
  then <[key := prop]> obj
  else obj.

Definition andThen {A B} (r : Res A) (k : A -> Res B) : Res B :=
  match r with
  | Ok a => k a
  | Err e => Err e
  | Panic => Panic
  end.

(** The first part of [resourceComputeAddressCreate]: the wire payload
    [obj], one block per field, in the order of the source. *)
Definition addressPayload (d : ResourceData) (config : Config) : Res (gmap string Value) :=
  let obj : gmap string Value := ∅ in
  andThen (expandComputeAddressAddress (Get "address" d) d config) (fun addressProp =>
  let obj := addProp "address" "address" addressProp d obj in
  andThen (expandComputeAddressAddressType (Get "address_type" d) d config) (fun addressTypeProp =>
  let obj := addProp "addressType" "address_type" addressTypeProp d obj in
  andThen (expandComputeAddressDescription (Get "description" d) d config) (fun descriptionProp =>
  let obj := addProp "description" "description" descriptionProp d obj in
  andThen (expandComputeAddressName (Get "name" d) d config) (fun nameProp =>
  let obj := addProp "name" "name" nameProp d obj in
  andThen (expandComputeAddressNetworkTier (Get "network_tier" d) d config) (fun networkTierProp =>
  let obj := addProp "networkTier" "network_tier" networkTierProp d obj in
  andThen (expandComputeAddressSubnetwork (Get "subnetwork" d) d config) (fun subnetworkProp =>
  let obj := addProp "subnetwork" "subnetwork" subnetworkProp d obj in
  andThen (expandComputeAddressRegion (Get "region" d) d config) (fun regionProp =>
  let obj := addProp "region" "region" regionProp d obj in
  Ok obj))))))).

Definition field (k : string) (res : gmap string Value) : Value :=
  match res !! k with Some v => v | None => VNil end.

Definition dquote : string := String (Ascii.ascii_of_nat 34) "".

Definition addressUrl : string :=
  "https://www.googleapis.com/compute/v1/projects/{{project}}/regions/{{region}}/addresses/{{name}}".

Definition readError : error -> error := Errorf "Error reading Address: ".

Definition resourceComputeAddressRead (api : Api) (config : Config) : M unit :=
  let* d := data in
  let* url := try (replaceVars d config addressUrl) id in
  emit (EvSendRequest "GET" url None) ;;
  match sendRequest api "GET" url None with
  | Err err =>
      handleNotFoundError err ("ComputeAddress " +:+ dquote +:+ Id d +:+ dquote)
  | Panic => fun st => (Panic, st)
  | Ok res =>
      let* v := try (flattenComputeAddressAddress (field "address" res)) id in
      dSet "address" v readError ;;
      let* v := try (flattenComputeAddressAddressType (field "addressType" res)) id in
      dSet "address_type" v readError ;;
      let* v := try (flattenComputeAddressCreationTimestamp (field "creationTimestamp" res)) id in
      dSet "creation_timestamp" v readError ;;
      let* v := try (flattenComputeAddressDescription (field "description" res)) id in
      dSet "description" v readError ;;
      let* v := try (flattenComputeAddressName (field "name" res)) id in
      dSet "name" v readError ;;
      let* v := try (flattenComputeAddressNetworkTier (field "networkTier" res)) id in
      dSet "network_tier" v readError ;;
      let* v := try (flattenComputeAddressSubnetwork (field "subnetwork" res)) id in
      dSet "subnetwork" v readError ;;
      let* v := try (flattenComputeAddressUsers (field "users" res)) id in
      dSet "users" v readError ;;
      let* v := try (flattenComputeAddressRegion (field "region" res)) id in
      dSet "region" v readError ;;
      let* s := try (assertString (field "selfLink" res)) id in
      dSet "self_link" (VString (ConvertSelfLinkToV1 s)) readError ;;
      let* d := data in
      let* project := try (getProject d config) id in
      dSet "project" (VString project) readError ;;
      ret tt
  end.

Definition resourceComputeAddressCreate (api : Api) (config : Config) : M unit :=
  let* d := data in
  let* obj := try (addressPayload d config) id in
  let* url := try (replaceVars d config
    "https://www.googleapis.com/compute/v1/projects/{{project}}/regions/{{region}}/addresses") id in
  emit (EvSendRequest "POST" url (Some obj)) ;;
  let* res := try (sendRequest api "POST" url (Some obj))
                  (Errorf "Error creating Address: ") in
  (* Store the ID now *)
  let* id_ := try (replaceVars d config "{{project}}/{{region}}/{{name}}")
                  (Errorf "Error constructing id: ") in
  modify (SetId id_) ;;
  let* d := data in
  let* project := try (getProject d config) id in
  let* op := try (Convert res) id in
  let* waitErr := computeOperationWaitTime api op "Creating Address" in
  match waitErr with
  | Some e =>
      (* The resource didn't actually create *)
      modify (SetId "") ;;
      fail (Errorf "Error waiting to create Address: " e)
  | None => resourceComputeAddressRead api config
  end.

Definition resourceComputeAddressDelete (api : Api) (config : Config) : M unit :=
  let* d := data in
  let* url := try (replaceVars d config addressUrl) id in
  emit (EvSendRequest "DELETE" url None) ;;
  match sendRequest api "DELETE" url None with
  | Err err => handleNotFoundError err "Address"
  | Panic => fun st => (Panic, st)
  | Ok res =>
      let* d := data in
      let* project := try (getProject d config) id in
      let* op := try (Convert res) id in
      let* err := computeOperationWaitTime api op "Deleting Address" in
      match err with
      | Some e => fail e
      | None => ret tt
      end
  end.

(** *** Import *)

(** Modelled from the spec: the patterns of the import resolver (section 3,
    ImportPattern), which the sources at hand give as text only.  The id
    formats of the importers are regular expressions made of literal
    characters and named groups [(?P<name>[^/]+)]. *)
Inductive Tok :=
| TChar (c : ascii)
| TGroup (name : string).

(** Modelled from the spec: reads a format into its tokens; [skip] counts characters of a group
    delimiter that were already recognised, [name] is the group name being
    read.  A format outside the fragment above is not compiled. *)
Fixpoint compile (skip : nat) (name : option string) (s : string) : option (list Tok) :=
  match s with
  | EmptyString => match name with None => Some [] | Some _ => None end
  | String c rest =>
      match skip with
      | S skip' => compile skip' name rest
      | O =>
          match name with
          | None =>
              if String.prefix "(?P<" s
              then compile 3 (Some "") rest
              else option_map (cons (TChar c)) (compile 0 None rest)
          | Some n =>
              if Ascii.eqb c ">"
              then if String.prefix "[^/]+)" rest
                   then option_map (cons (TGroup n)) (compile 6 None rest)
                   else None
              else compile 0 (Some (n +:+ String c "")) rest
          end
      end
  end.

(** Modelled from the spec: the match of a group, a non-empty run of
    characters other than [/], the longest that
    lets the rest of the format, [k], match what follows.  [acc] is the run
    read so far. *)
Fixpoint capture (k : string -> option (list (string * string))) (n acc s : string)
  : option (list (string * string)) :=
  let here :=
    if String.eqb acc "" then None
    else option_map (cons (n, acc)) (k s) in
  match s with
  | String c s' =>
      if Ascii.eqb c "/" then here
      else match capture k n (acc +:+ String c "") s' with
           | Some r => Some r
           | None => here
           end
  | EmptyString => here
  end.

(** Modelled from the spec: whole-string match of an id against a compiled
    format (section 4.3).  The result binds the group names, in the order of
    the groups. *)
Fixpoint matchToks (ts : list Tok) (s : string) : option (list (string * string)) :=
  match ts with
  | [] => match s with EmptyString => Some [] | _ => None end
  | TChar c :: ts' =>
      match s with
      | String c' s' => if Ascii.eqb c c' then matchToks ts' s' else None
      | EmptyString => None
      end
  | TGroup n :: ts' => capture (matchToks ts') n "" s
  end.

(** Modelled from the spec: the match of an id against one format. *)
Definition matchFormat (idFormat importId : string) : Res (option (list (string * string))) :=
  match compile 0 None idFormat with
  | Some ts => Ok (matchToks ts importId)
  | None => Err (ErrorString "Import is not supported. Invalid regex formats.")
  end.

(** Modelled from the spec: the formats are tried in the order of the list;
    the first that matches the whole id gives the bindings (section 4.3). *)
Fixpoint firstMatch (idRegexes : list string) (importId : string)
  : Res (option (list (string * string))) :=
  match idRegexes with
  | [] => Ok None
  | idFormat :: rest =>
      match matchFormat idFormat importId with
      | Ok (Some fields) => Ok (Some fields)
      | Ok None => firstMatch rest importId
      | Err e => Err e
      | Panic => Panic
      end
  end.

(** Modelled from the spec: the error of the resolver when no format
    matches. *)
Definition NoPatternMatchedError (importId : string) : error :=
  ErrorString ("Import id " +:+ dquote +:+ importId +:+ dquote
               +:+ " doesn't match any of the accepted formats").

Definition bound (k : string) (fields : list (string * string)) : bool :=
  existsb (fun kv => String.eqb (fst kv) k) fields.

(** Modelled from the spec: fields the matched format left open take the
    ambient default, when the configuration has one (section 4.3). *)
Definition ambientDefaults (config : Config) (fields : list (string * string))
  : list (string * string) :=
  ((if negb (bound "project" fields) && negb (String.eqb (Project config) "")
    then [("project", Project config)] else [])
   ++
   (if negb (bound "region" fields) && negb (String.eqb (Region config) "")
    then [("region", Region config)] else []))%list.

(** Modelled from the spec: the import resolver of section 4.3,
    [resolve(importId, patterns, ambientDefaults)], which the sources at hand
    call as [parseImportId] without containing it: the field bindings, in the
    order found, or the error that no pattern matched. *)
Definition resolveFields (importId : string) (idRegexes : list string) (config : Config)
  : Res (list (string * string)) :=
  match firstMatch idRegexes importId with
  | Ok (Some fields) => Ok (fields ++ ambientDefaults config fields)%list
  | Ok None => Err (NoPatternMatchedError importId)
  | Err e => Err e
  | Panic => Panic
  end.

(** Modelled from the spec: the same, as the field map of the contract. *)
Definition resolve (importId : string) (idRegexes : list string) (config : Config)
  : Res (gmap string string) :=
  andThen (resolveFields importId idRegexes config)
          (fun fields => Ok (list_to_map fields)).

(** Modelled from the spec: the resolved fields seed the state. *)
Fixpoint setFields (fields : list (string * string)) : M unit :=
  match fields with
  | [] => ret tt
  | (k, v) :: rest => dSet k (VString v) id ;; setFields rest
  end.

(** Modelled from the spec: [parseImportId] is not part of the sources at
    hand.  It resolves the id of the resource being imported and seeds the
    identity fields of the state with the result. *)
Definition parseImportId (idRegexes : list string) (config : Config) : M unit :=
  let* d := data in
  let* fields := try (resolveFields (Id d) idRegexes config) id in
  setFields fields.

(** A call statement whose error result is not looked at. *)
Definition discard {A} (m : M A) : M unit :=
  fun st =>
    match m st with
    | (Ok _, st') => (Ok tt, st')
    | (Err _, st') => (Ok tt, st')
    | (Panic, st') => (Panic, st')
    end.

Definition addressImportFormats : list string :=
  [ "projects/(?P<project>[^/]+)/regions/(?P<region>[^/]+)/addresses/(?P<name>[^/]+)";
    "(?P<project>[^/]+)/(?P<region>[^/]+)/(?P<name>[^/]+)";
    "(?P<name>[^/]+)" ].

Definition resourceComputeAddressImport (config : Config) : M (list ResourceData) :=
  discard (parseImportId addressImportFormats config) ;;
  (* Replace import id for the resource id *)
  let* d := data in
  let* id_ := try (replaceVars d config "{{project}}/{{region}}/{{name}}")
                  (Errorf "Error constructing id: ") in
  modify (SetId id_) ;;
  let* d := data in
  ret [d].

(** ** Sample inputs *)

Definition sampleConfig : Config := {| Project := "p1"; Region := "r1" |}.

Definition emptyAddress (id_ : string) : ResourceData :=
  {| rd_schema := addressSchema; rd_attrs := ∅; rd_id := id_ |}.

Definition sampleAddress : ResourceData :=
  {| rd_schema := addressSchema;
     rd_attrs := {[ "name" := VString "addr1" ]};
     rd_id := "p1/r1/addr1" |}.

Definition sampleOperation : Operation :=
  {| Op_Name := "operation-1"; Op_Status := "RUNNING"; Op_Error := None |}.

Definition sampleRoute : ResourceData :=
  {| rd_schema := routeSchema;
     rd_attrs := {[ "name" := VString "route1";
                    "dest_range" := VString "10.0.0.0/8";
                    "network" := VString "default";
                    "priority" := VInt 100 ]};
     rd_id := "" |}.

Definition notFound : error := GoogleApiError 404 "notFound".

(** A control plane that knows its networks, accepts every route and has it
    from then on; polling an operation ends in [outcome]. *)
Definition routeApi (outcome : PollState) : Api :=
  {| NetworksGet := fun project name =>
       Ok {| Network_SelfLink := "projects/" +:+ project +:+ "/global/networks/" +:+ name |};
     InstancesGet := fun _ _ _ => Err notFound;
     RoutesInsert := fun _ _ => Ok sampleOperation;
     RoutesGet := fun project id_ =>
       Ok {| Name := id_; DestRange := "10.0.0.0/8";
             Network_ := "projects/" +:+ project +:+ "/global/networks/default";
             NextHopInstance := ""; NextHopIp := ""; NextHopNetwork := "";
             NextHopGateway := ""; Priority := 100; Tags := [] |};
     RoutesDelete := fun _ _ => Ok sampleOperation;
     sendRequest := fun _ _ _ => Err notFound;
     poll := fun _ => outcome |}.

(** A control plane on which nothing exists: every call is answered 404. *)
Definition goneApi : Api :=
  {| NetworksGet := fun _ _ => Err notFound;
     InstancesGet := fun _ _ _ => Err notFound;
     RoutesInsert := fun _ _ => Err notFound;
     RoutesGet := fun _ _ => Err notFound;
     RoutesDelete := fun _ _ => Err notFound;
     sendRequest := fun _ _ _ => Err notFound;
     poll := fun _ => Succeeded |}.

(** A control plane for addresses: a mutating request is answered with an
    operation handle, a GET with the remote object [remote]; polling ends in
    [outcome]. *)
Definition addressApi (outcome : PollState) (remote : gmap string Value) : Api :=
  {| NetworksGet := fun _ _ => Err notFound;
     InstancesGet := fun _ _ _ => Err notFound;
     RoutesInsert := fun _ _ => Err notFound;
     RoutesGet := fun _ _ => Err notFound;
     RoutesDelete := fun _ _ => Err notFound;
     sendRequest := fun method _ _ =>
       if String.eqb method "GET" then Ok remote
       else Ok {[ "name" := VString "operation-1"; "status" := VString "RUNNING" ]};
     poll := fun _ => outcome |}.

(** ** Vocabulary of the statements *)

Definition noPoll (evs : list Event) : Prop :=
  Forall (fun e => isPoll e = false) evs.

Definition carriesPayload (e : Event) : bool :=
  match e with EvSendRequest _ _ (Some _) => true | _ => false end.

(** A computation that only adds to the trace, and adds neither a poll nor a
    request with a payload. *)
Definition quiet {A} (m : M A) : Prop :=
  forall st, exists evs,
    st_trace (snd (m st)) = (st_trace st ++ evs)%list /\
    Forall (fun e => isPoll e = false /\ carriesPayload e = false) evs.

Definition errorOf {A} (r : Res A) : option error :=
  match r with Err e => Some e | _ => None end.

(** The error, if any, with which the control plane answers the request of
    each call. *)
Definition routeDeleteAnswer (api : Api) (config : Config) (d : ResourceData)
  : option error :=
  errorOf (RoutesDelete api (Project config) (Id d)).

Definition routeReadAnswer (api : Api) (config : Config) (d : ResourceData)
  : option error :=
  errorOf (RoutesGet api (Project config) (Id d)).

Definition addressAnswer (method : string) (api : Api) (config : Config)
  (d : ResourceData) : option error :=
  match replaceVars d config addressUrl with
  | Ok url => errorOf (sendRequest api method url None)
  | _ => None
  end.

(** The fetched object of an address Read. *)
Definition addressFetched (api : Api) (config : Config) (d : ResourceData)
  : option (gmap string Value) :=
  match replaceVars d config addressUrl with
  | Ok url => match sendRequest api "GET" url None with Ok res => Some res | _ => None end
  | _ => None
  end.

(** The claims as the design document words them, for one controller. *)

(** Create leaves no identity behind when the poller does not succeed. *)
Definition rollsBackIdentity (create : Api -> Config -> M unit) : Prop :=
  forall api config d op,
    In (EvPoll op) (trace (run (create api config) d)) ->
    poll api op <> Succeeded ->
    Id (final (run (create api config) d)) = "".

(** A request answered with NotFound makes the call a success, without a
    poll. *)
Definition notFoundIsSuccess (call : Api -> Config -> M unit)
  (answer : Api -> Config -> ResourceData -> option error) : Prop :=
  forall api config d err,
    answer api config d = Some err -> isNotFound err = true ->
    result (run (call api config) d) = Ok tt /\
    noPoll (trace (run (call api config) d)).

(** On an object that is gone the call succeeds and drops the identity. *)
Definition notFoundIsAbsent (read : Api -> Config -> M unit)
  (answer : Api -> Config -> ResourceData -> option error) : Prop :=
  forall api config d err,
    answer api config d = Some err -> isNotFound err = true ->
    result (run (read api config) d) = Ok tt /\
    Id (final (run (read api config) d)) = "".

(** The fields Read takes from the remote object: declared name, wire name
    and the flatten function of the codec. *)
Definition addressReadCodec : list (string * string * (Value -> Res Value)) :=
  [ ("address", "address", flattenComputeAddressAddress);
    ("address_type", "addressType", flattenComputeAddressAddressType);
    ("creation_timestamp", "creationTimestamp", flattenComputeAddressCreationTimestamp);
    ("description", "description", flattenComputeAddressDescription);
    ("name", "name", flattenComputeAddressName);
    ("network_tier", "networkTier", flattenComputeAddressNetworkTier);
    ("subnetwork", "subnetwork", flattenComputeAddressSubnetwork);
    ("users", "users", flattenComputeAddressUsers);
    ("region", "region", flattenComputeAddressRegion) ].

(** A successful Read of an object that exists leaves a value under every
    declared field. *)
Definition writesEveryField (schema : list (string * Schema))
  (read : Api -> Config -> M unit)
  (found : Api -> Config -> ResourceData -> bool) : Prop :=
  forall api config d,
    found api config d = true ->
    result (run (read api config) d) = Ok tt ->
    forall k s, In (k, s) schema ->
      is_Some (rd_attrs (final (run (read api config) d)) !! k).

Definition addressFound (api : Api) (config : Config) (d : ResourceData) : bool :=
  match addressFetched api config d with Some _ => true | None => false end.

Definition routeFound (api : Api) (config : Config) (d : ResourceData) : bool :=
  match RoutesGet api (Project config) (Id d) with Ok _ => true | _ => false end.

Definition unreadRoute : ResourceData :=
  {| rd_schema := routeSchema; rd_attrs := ∅; rd_id := "route1" |}.

(** The framework takes what the codec makes of the nine wire fields. *)
Definition codecFieldsAccepted (d : ResourceData) (res : gmap string Value) : Prop :=
  forall k w fl, In (k, w, fl) addressReadCodec ->
    exists v s, fl (field w res) = Ok v /\
                lookupSchema k (rd_schema d) = Some s /\ fits s v = true.

(** Whatever else the answer holds, Read panics when it has no string under
    [selfLink]. *)
Definition selfLinkAssertionAlwaysFails : Prop :=
  forall api config d res,
    addressFetched api config d = Some res ->
    isString (field "selfLink" res) = false ->
    result (run (resourceComputeAddressRead api config) d) = Panic.

(** The blocks of the payload construction: wire name, declared name and the
    expand function of the codec. *)
Definition payloadFields
  : list (string * string * (Value -> ResourceData -> Config -> Res Value)) :=
  [ ("address", "address", expandComputeAddressAddress);
    ("addressType", "address_type", expandComputeAddressAddressType);
    ("description", "description", expandComputeAddressDescription);
    ("name", "name", expandComputeAddressName);
    ("networkTier", "network_tier", expandComputeAddressNetworkTier);
    ("subnetwork", "subnetwork", expandComputeAddressSubnetwork);
    ("region", "region", expandComputeAddressRegion) ].

(** What holds of a payload built from the state [d]: every value in it is
    the non-empty expansion of a declared field that was set or whose stored
    value differs from the expansion. *)
Definition payloadSound (d : ResourceData) (config : Config)
  (obj : gmap string Value) : Prop :=
  forall key prop, obj !! key = Some prop ->
    isEmptyValue prop = false /\
    exists f expand,
      In (key, f, expand) payloadFields /\
      expand (Get f d) d config = Ok prop /\
      (snd (GetOkExists f d) = true \/ fst (GetOkExists f d) <> prop).

(** The end-to-end scenario of the design document: an internal address of
    which only the name and the type are declared. *)
Definition internalAddress : ResourceData :=
  {| rd_schema := addressSchema;
     rd_attrs := {[ "name" := VString "addr1"; "address_type" := VString "INTERNAL" ]};
     rd_id := "" |}.

(** The string a compiled format stands for once its groups are filled with
    the given bindings, in order. *)
Fixpoint render (ts : list Tok) (fields : list (string * string)) : option string :=
  match ts with
  | [] => match fields with [] => Some "" | _ => None end
  | TChar c :: ts' => option_map (String c) (render ts' fields)
  | TGroup n :: ts' =>
      match fields with
      | (n', v) :: fs =>
          if String.eqb n n' then option_map (String.append v) (render ts' fs) else None
      | [] => None
      end
  end.

Definition qualifiedId : string := "projects/p1/regions/r1/addresses/a1".

(** The two directions of the codec, one after the other. *)
Definition roundTrip (expand : Value -> ResourceData -> Config -> Res Value)
  (flatten : Value -> Res Value) (v : Value) (d : ResourceData) (config : Config)
  : Res Value :=
  andThen (expand v d config) flatten.

(** The fields that have both directions. *)
Definition addressCodec
  : list (string * (Value -> ResourceData -> Config -> Res Value) * (Value -> Res Value)) :=
  [ ("address", expandComputeAddressAddress, flattenComputeAddressAddress);
    ("address_type", expandComputeAddressAddressType, flattenComputeAddressAddressType);
    ("description", expandComputeAddressDescription, flattenComputeAddressDescription);
    ("name", expandComputeAddressName, flattenComputeAddressName);
    ("network_tier", expandComputeAddressNetworkTier, flattenComputeAddressNetworkTier);
    ("subnetwork", expandComputeAddressSubnetwork, flattenComputeAddressSubnetwork);
    ("region", expandComputeAddressRegion, flattenComputeAddressRegion) ].

(** Those of them the codec passes through unchanged in both directions. *)
Definition scalarCodec
  : list (string * (Value -> ResourceData -> Config -> Res Value) * (Value -> Res Value)) :=
  [ ("address", expandComputeAddressAddress, flattenComputeAddressAddress);
    ("description", expandComputeAddressDescription, flattenComputeAddressDescription);
    ("name", expandComputeAddressName, flattenComputeAddressName);
    ("network_tier", expandComputeAddressNetworkTier, flattenComputeAddressNetworkTier) ].

Fixpoint hasSlash (s : string) : bool :=
  match s with
  | EmptyString => false
  | String c s' => Ascii.eqb c "/" || hasSlash s'
  end.

Definition isSelfLink (s : string) : bool := String.prefix "https://" s.

(** The canonical form in the words of the design document (section 8): a
    value is its own canonical form, except that a self-link becomes its
    relative path (subnetwork) or its short name (region), and that an absent
    or empty address type becomes "EXTERNAL". *)
Definition canonicalForm (f : string) (v : Value) : Value :=
  match v with
  | VNil => if String.eqb f "address_type" then VString "EXTERNAL" else v
  | VString s =>
      if String.eqb f "address_type"
      then if String.eqb s "" then VString "EXTERNAL" else v
      else if String.eqb f "subnetwork"
      then if isSelfLink s then VString (joinSlash (referencePath s)) else v
      else if String.eqb f "region"
      then if isSelfLink s then VString (lastSegment s) else v
      else v
  | _ => v
  end.

(** The round-trip property as the design document words it. *)
Definition codecRoundTrips : Prop :=
  forall f expand flatten, In (f, expand, flatten) addressCodec ->
    forall s d config,
      roundTrip expand flatten (VString s) d config = Ok (canonicalForm f (VString s)).

(** ** Vocabulary of further statements *)

Definition isInsert (e : Event) : bool :=
  match e with EvRoutesInsert _ _ => true | _ => false end.

Definition isInstancesGet (e : Event) : bool :=
  match e with EvInstancesGet _ _ _ => true | _ => false end.

Definition createUrl : string :=
  "https://www.googleapis.com/compute/v1/projects/{{project}}/regions/{{region}}/addresses".

Definition idTemplate : string := "{{project}}/{{region}}/{{name}}".

(** A control plane whose answer to a mutating request does not decode into
    an operation: the name is a number. *)
Definition undecodableApi : Api :=
  {| NetworksGet := fun _ _ => Err notFound;
     InstancesGet := fun _ _ _ => Err notFound;
     RoutesInsert := fun _ _ => Err notFound;
     RoutesGet := fun _ _ => Err notFound;
     RoutesDelete := fun _ _ => Err notFound;
     sendRequest := fun _ _ _ => Ok {[ "name" := VInt 7 ]};
     poll := fun _ => Succeeded |}.

(** A state whose subnetwork is no reference of an accepted shape. *)
Definition badSubnetwork : ResourceData :=
  {| rd_schema := addressSchema;
     rd_attrs := {[ "name" := VString "addr1"; "subnetwork" := VString "a/b" ]};
     rd_id := "" |}.

(** The payload fields the codec expands to themselves: wire name and
    declared name. *)
Definition scalarPayloadFields : list (string * string) :=
  [ ("address", "address"); ("addressType", "address_type");
    ("description", "description"); ("name", "name");
    ("networkTier", "network_tier") ].

(** The condition under which a block of Create puts [prop] in the payload. *)
Definition included (f : string) (prop : Value) (d : ResourceData) : bool :=
  negb (isEmptyValue prop)
  && (snd (GetOkExists f d) || negb (DeepEqual (fst (GetOkExists f d)) prop)).

(** What Route Create sends for a next hop given as a plain string: the
    value of the field when it is set, the empty string otherwise. *)
Definition sentWhenSet (k : string) (d : ResourceData) (sent : string) : Prop :=
  match GetOk k d with
  | (v, true) => v = VString sent
  | (_, false) => sent = ""
  end.

(** The route parameter of Route Create, field by field, in terms of the
    state and of the answers of the control plane. *)
Definition routeCarries (api : Api) (config : Config) (d : ResourceData)
  (route : Route) : Prop :=
  Get "name" d = VString (Name route) /\
  Get "dest_range" d = VString (DestRange route) /\
  Get "priority" d = VInt (Priority route) /\
  Get "tags" d = VList (map VString (Tags route)) /\
  (exists n network,
     Get "network" d = VString n /\
     NetworksGet api (Project config) n = Ok network /\
     Network_ route = Network_SelfLink network) /\
  sentWhenSet "next_hop_ip" d (NextHopIp route) /\
  sentWhenSet "next_hop_gateway" d (NextHopGateway route) /\
  match GetOk "next_hop_instance" d with
  | (v, true) =>
      exists zone name instance,
        Get "next_hop_instance_zone" d = VString zone /\
        v = VString name /\
        InstancesGet api (Project config) zone name = Ok instance /\
        NextHopInstance route = Instance_SelfLink instance
  | (_, false) => NextHopInstance route = ""
  end /\
  match GetOk "next_hop_network" d with
  | (v, true) =>
      exists name network,
        v = VString name /\
        NetworksGet api (Project config) name = Ok network /\
        NextHopNetwork route = Network_SelfLink network
  | (_, false) => NextHopNetwork route = ""
  end.

(** The route the sample state asks for, on the sample control plane. *)
Definition sampleRouteParameter : Route :=
  {| Name := "route1"; DestRange := "10.0.0.0/8";
     Network_ := "projects/p1/global/networks/default";
     NextHopInstance := ""; NextHopIp := ""; NextHopNetwork := "";
     NextHopGateway := ""; Priority := 100; Tags := [] |}.

(** The wire fields Address Read expects to be strings, when present. *)
Definition stringWires : list string :=
  [ "address"; "addressType"; "creationTimestamp"; "description"; "name";
    "networkTier"; "subnetwork"; "region" ].

Definition nilOrString (v : Value) : bool :=
  match v with VNil | VString _ => true | _ => false end.

Definition nilOrStrings (v : Value) : bool :=
  match v with VNil => true | VList l => forallb isString l | _ => false end.

(** An answer of the shape the address API documents: strings under the
    string fields, a list of strings under [users], a string under
    [selfLink]. *)
Definition wellTypedAnswer (res : gmap string Value) : Prop :=
  (forall w, In w stringWires -> nilOrString (field w res) = true) /\
  nilOrStrings (field "users" res) = true /\
  isString (field "selfLink" res) = true.

(** *** Ids of the import formats *)

Fixpoint countSlash (s : string) : nat :=
  match s with
  | EmptyString => 0
  | String c s' => (if Ascii.eqb c "/" then 1 else 0) + countSlash s'
  end.

(** The [/] a format spells out. *)
Fixpoint slashesOf (ts : list Tok) : nat :=
  match ts with
  | [] => 0
  | TChar c :: ts' => (if Ascii.eqb c "/" then 1 else 0) + slashesOf ts'
  | TGroup _ :: ts' => slashesOf ts'
  end.

(** The two qualified ways of writing the address [n] of region [r] in
    project [p], after the first and the second import format. *)
Definition qualifiedIds (p r n : string) : list string :=
  [ "projects/" +:+ p +:+ "/regions/" +:+ r +:+ "/addresses/" +:+ n;
    p +:+ "/" +:+ r +:+ "/" +:+ n ].

(** A segment of an id: not empty, no [/]. *)
Definition segment (s : string) : Prop := s <> "" /\ hasSlash s = false.

(** * Properties *)

(** ** Values *)

Lemma DeepEqual_refl (v : Value) : DeepEqual v v = true.
Proof.
  revert v. fix IH 1. intros [ | s | n | b | l]; simpl.
  - reflexivity.
  - apply String.eqb_refl.
  - apply Z.eqb_refl.
  - destruct b; reflexivity.
  - induction l as [ | x l IHl]; [reflexivity | ].
    rewrite IH. simpl. exact IHl.
Qed.

Lemma DeepEqual_false (a b : Value) : DeepEqual a b = false -> a <> b.
Proof. intros H ->. rewrite DeepEqual_refl in H. discriminate. Qed.

(** ** The schemas *)

(** C4, as the schemas have it: in the route schema every field other than
    [tags] is ForceNew; in the address schema every field the user can set
    (Required or Optional) is ForceNew, and the three fields that are only
    computed, [creation_timestamp], [users] and [self_link], are not. *)
Theorem C4_force_new_fields :
  (forall k s, In (k, s) routeSchema -> k <> "tags" -> ForceNew s = true) /\
  (forall k s, In (k, s) addressSchema ->
     Required s || Optional s = true -> ForceNew s = true) /\
  (forall k s, In (k, s) addressSchema ->
     Required s || Optional s = false ->
     In k ["creation_timestamp"; "users"; "self_link"] /\
     Computed s = true /\ ForceNew s = false).
Proof.
  split; [ | split]; intros k s Hin; simpl in Hin;
    repeat (destruct Hin as [Heq | Hin]; [inversion Heq; subst; clear Heq | ]);
    try contradiction; simpl; try congruence; try discriminate; auto 10.
Qed.

Lemma C4_force_new_fields_witness :
  ForceNew (plain TypeString true false true) = true.
Proof.
  apply (proj1 C4_force_new_fields "name"); [simpl; auto | discriminate].
Defined.

(** C4 as stated does not hold: [self_link] is declared in the address schema
    and is not ForceNew. *)
Lemma C4_not_every_field_force_new :
  ~ (forall k s, In (k, s) (routeSchema ++ addressSchema) -> ForceNew s = true).
Proof.
  intros H.
  assert (Hin : In ("self_link",
                    {| Type_ := TypeString; Required := false; Optional := false;
                       Computed := true; ForceNew := false; Default := None;
                       Elem := None |}) (routeSchema ++ addressSchema))
    by (simpl; auto 30).
  apply H in Hin. discriminate Hin.
Qed.

(** ** Computations that do not poll *)

Section Quiet.
Context {A B : Type}.

Lemma quiet_ret (a : A) : quiet (ret a).
Proof. intros st. exists []. rewrite app_nil_r. split; [reflexivity | constructor]. Qed.

Lemma quiet_fail (e : error) : quiet (@fail A e).
Proof. intros st. exists []. rewrite app_nil_r. split; [reflexivity | constructor]. Qed.

Lemma quiet_try (r : Res A) (wrap : error -> error) : quiet (try r wrap).
Proof.
  intros st. exists []. rewrite app_nil_r.
  split; [destruct r; reflexivity | constructor].
Qed.

Lemma quiet_bind (m : M A) (k : A -> M B) :
  quiet m -> (forall a, quiet (k a)) -> quiet (bind m k).
Proof.
  intros Hm Hk st. unfold bind.
  destruct (Hm st) as [evs [Htr Hno]].
  destruct (m st) as [[a | e | ] st']; simpl in *.
  - destruct (Hk a st') as [evs' [Htr' Hno']].
    exists (evs ++ evs')%list. rewrite Htr', Htr, app_assoc.
    split; [reflexivity | apply Forall_app; split; assumption].
  - exists evs. split; assumption.
  - exists evs. split; assumption.
Qed.
End Quiet.

Lemma quiet_data : quiet data.
Proof. intros st. exists []. rewrite app_nil_r. split; [reflexivity | constructor]. Qed.

Lemma quiet_modify f : quiet (modify f).
Proof. intros st. exists []. simpl. rewrite app_nil_r. split; [reflexivity | constructor]. Qed.

Lemma quiet_dSet k v wrap : quiet (dSet k v wrap).
Proof.
  intros st. exists []. rewrite app_nil_r. unfold dSet.
  split; [destruct (Set_ k v (st_d st)); reflexivity | constructor].
Qed.

Lemma quiet_emit e : isPoll e = false -> carriesPayload e = false -> quiet (emit e).
Proof.
  intros He Hp st. exists [e]. split; [reflexivity | ].
  constructor; [split; assumption | constructor].
Qed.

Lemma quiet_panic {A} : quiet (fun st => (@Panic A, st)).
Proof. intros st. exists []. rewrite app_nil_r. split; [reflexivity | constructor]. Qed.

Lemma quiet_handleNotFoundError err resource : quiet (handleNotFoundError err resource).
Proof.
  unfold handleNotFoundError. destruct (isNotFound err).
  - apply quiet_bind; [apply quiet_modify | intros; apply quiet_ret].
  - apply quiet_fail.
Qed.

Create HintDb quiet.
#[local] Hint Resolve quiet_ret quiet_fail quiet_try quiet_data quiet_modify
  quiet_dSet quiet_panic quiet_handleNotFoundError : quiet.

Ltac quiet_steps :=
  repeat first
    [ apply quiet_bind; [ | intros ? ]
    | apply quiet_emit; reflexivity
    | solve [auto with quiet] ].

Lemma quiet_resourceComputeRouteRead api config :
  quiet (resourceComputeRouteRead api config).
Proof. unfold resourceComputeRouteRead. quiet_steps. Qed.

Lemma quiet_resourceComputeAddressRead api config :
  quiet (resourceComputeAddressRead api config).
Proof.
  unfold resourceComputeAddressRead. quiet_steps.
  destruct (sendRequest api "GET" _ None); quiet_steps.
Qed.

(** An event that is a poll is not among the events of a quiet run. *)
Lemma quiet_no_poll {A} (m : M A) st op pre :
  quiet m -> st_trace st = pre ->
  In (EvPoll op) (st_trace (snd (m st))) -> In (EvPoll op) pre.
Proof.
  intros Hq Hpre Hin. destruct (Hq st) as [evs [Htr Hno]].
  rewrite Htr, Hpre in Hin. apply in_app_or in Hin as [Hin | Hin]; [exact Hin | ].
  rewrite Forall_forall in Hno.
  apply list_elem_of_In in Hin. apply Hno in Hin as [Hin _]. discriminate Hin.
Qed.

(** Nor is a request that carries a payload. *)
Lemma quiet_no_payload {A} (m : M A) st method url obj pre :
  quiet m -> st_trace st = pre ->
  In (EvSendRequest method url (Some obj)) (st_trace (snd (m st))) ->
  In (EvSendRequest method url (Some obj)) pre.
Proof.
  intros Hq Hpre Hin. destruct (Hq st) as [evs [Htr Hno]].
  rewrite Htr, Hpre in Hin. apply in_app_or in Hin as [Hin | Hin]; [exact Hin | ].
  rewrite Forall_forall in Hno.
  apply list_elem_of_In in Hin. apply Hno in Hin as [_ Hin]. discriminate Hin.
Qed.

(** ** Running a controller by hand *)

#[local] Arguments addressPayload : simpl never.
#[local] Arguments replaceVars : simpl never.
#[local] Arguments getProject : simpl never.
#[local] Arguments Convert : simpl never.
#[local] Arguments Get : simpl never.
#[local] Arguments GetOk : simpl never.
#[local] Arguments Errorf : simpl never.
#[local] Arguments String.append : simpl never.
#[local] Arguments resourceComputeAddressRead : simpl never.
#[local] Arguments resourceComputeRouteRead : simpl never.

Ltac unfold_m :=
  unfold run, result, final, trace, bind, try, data, modify, emit, ret, fail,
    computeOperationWaitTime, WaitForState in *;
  cbn in *.

(** Case analysis on the innermost call whose outcome decides how the run
    goes on. *)
Ltac scrutinee x :=
  lazymatch x with
  | context [match ?y with _ => _ end] => scrutinee y
  | _ => destruct x eqn:?
  end.

Ltac step :=
  match goal with
  | H : context [match ?x with _ => _ end] |- _ => scrutinee x
  | |- context [match ?x with _ => _ end] => scrutinee x
  end; cbn in *.

Ltac no_poll_yet H :=
  solve [ exfalso; simpl in H; intuition discriminate ].

Ltac find_poll H :=
  simpl in H;
  repeat (destruct H as [H | H]; [try discriminate H | ]);
  try contradiction.

(** ** Create: what happens to the identity when the poller does not succeed *)

Lemma address_create_rollback api config d op :
  let r := run (resourceComputeAddressCreate api config) d in
  In (EvPoll op) (trace r) -> poll api op <> Succeeded ->
  Id (final r) = "" /\
  exists e, result r = Err (Errorf "Error waiting to create Address: " e).
Proof.
  intros r Hin Hpoll. subst r. unfold resourceComputeAddressCreate in *. unfold_m.
  repeat (step; try no_poll_yet Hin).
  all: try (split; [reflexivity | eexists; reflexivity]).
  all: exfalso.
  all: eapply quiet_no_poll in Hin;
    [ | apply quiet_resourceComputeAddressRead | reflexivity ].
  all: simpl in Hin; destruct Hin as [Hin | [Hin | []]]; [discriminate Hin | ].
  all: inversion Hin; subst; contradiction.
Qed.

Lemma assertString_GetString k d s :
  assertString (Get k d) = Ok s -> GetString k d = s.
Proof.
  unfold GetString. destruct (Get k d); simpl; intros H; inversion H; reflexivity.
Qed.

Lemma route_create_rollback api config d op :
  let r := run (resourceComputeRouteCreate api config) d in
  In (EvPoll op) (trace r) ->
  (forall detail, poll api op = Failed detail ->
     Id (final r) = "" /\ result r = Err (OperationError detail)) /\
  (poll api op = TimedOut ->
     Id (final r) = GetString "name" d /\
     exists e, result r = Err (Errorf "Error waiting for route to create: " e)).
Proof.
  intros r Hin. subst r. unfold resourceComputeRouteCreate in *. unfold_m.
  repeat (step; try no_poll_yet Hin).
  all: try (eapply quiet_no_poll in Hin;
            [ | apply quiet_resourceComputeRouteRead | reflexivity ]).
  all: find_poll Hin; inversion Hin; subst.
  all: split; [intros detail' Hd | intros Ht]; try congruence.
  all: try (split; [reflexivity | congruence]).
  all: split; [symmetry; apply assertString_GetString; assumption
              | eexists; reflexivity].
Qed.

(** The end-to-end scenario of the design document: Create of an internal
    address submits the name and the type only, polls once, and on success
    reads the canonical state back. *)
Example address_create_scenario :
  let remote : gmap string Value :=
    {[ "name" := VString "addr1"; "addressType" := VString "INTERNAL";
       "networkTier" := VString "PREMIUM";
       "selfLink" := VString
         "https://www.googleapis.com/compute/v1/projects/p1/regions/r1/addresses/addr1" ]} in
  let r := run (resourceComputeAddressCreate (addressApi Succeeded remote) sampleConfig)
               internalAddress in
  result r = Ok tt /\
  Id (final r) = "p1/r1/addr1" /\
  trace r =
    [ EvSendRequest "POST"
        "https://www.googleapis.com/compute/v1/projects/p1/regions/r1/addresses"
        (Some {[ "name" := VString "addr1"; "addressType" := VString "INTERNAL" ]});
      EvPoll {| Op_Name := "operation-1"; Op_Status := "RUNNING"; Op_Error := None |};
      EvSendRequest "GET"
        "https://www.googleapis.com/compute/v1/projects/p1/regions/r1/addresses/addr1"
        None ] /\
  rd_attrs (final r) !! "address_type" = Some (VString "INTERNAL") /\
  rd_attrs (final r) !! "network_tier" = Some (VString "PREMIUM").
Proof. vm_compute. repeat split. Qed.

(** C1, as the controllers have it.  Address Create drops the identity
    whenever the poller it ran did not succeed, failure and timeout alike, and
    returns the wait error.  Route Create drops the identity when the finished
    operation carries an error; when the wait itself gives up it returns that
    error and the identity stays the name of the route. *)
Theorem C1_create_rollback :
  rollsBackIdentity resourceComputeAddressCreate /\
  (forall api config d op,
     let r := run (resourceComputeAddressCreate api config) d in
     In (EvPoll op) (trace r) -> poll api op <> Succeeded ->
     exists e, result r = Err (Errorf "Error waiting to create Address: " e)) /\
  (forall api config d op,
     let r := run (resourceComputeRouteCreate api config) d in
     In (EvPoll op) (trace r) ->
     (forall detail, poll api op = Failed detail ->
        Id (final r) = "" /\ result r = Err (OperationError detail)) /\
     (poll api op = TimedOut ->
        Id (final r) = GetString "name" d /\
        exists e, result r = Err (Errorf "Error waiting for route to create: " e))).
Proof.
  split; [ | split].
  - intros api config d op Hin Hpoll.
    apply (address_create_rollback api config d op Hin Hpoll).
  - intros api config d op r Hin Hpoll.
    apply (address_create_rollback api config d op Hin Hpoll).
  - intros api config d op. apply route_create_rollback.
Qed.

Lemma C1_create_rollback_witness :
  Id (final (run (resourceComputeAddressCreate (addressApi TimedOut ∅) sampleConfig)
                 sampleAddress)) = "".
Proof.
  apply (proj1 C1_create_rollback (addressApi TimedOut ∅) sampleConfig sampleAddress
           {| Op_Name := "operation-1"; Op_Status := "RUNNING"; Op_Error := None |}).
  - vm_compute. auto.
  - discriminate.
Defined.

(** C1 as stated does not hold for routes: when the wait times out, the
    route keeps the identity assigned before the wait. *)
Lemma C1_route_timeout_keeps_identity :
  ~ rollsBackIdentity resourceComputeRouteCreate.
Proof.
  intros H.
  specialize (H (routeApi TimedOut) sampleConfig sampleRoute sampleOperation).
  assert (Hid : Id (final (run (resourceComputeRouteCreate (routeApi TimedOut) sampleConfig)
                               sampleRoute)) = "route1") by (vm_compute; reflexivity).
  rewrite H in Hid.
  - discriminate Hid.
  - vm_compute. auto 10.
  - discriminate.
Qed.

(** ** Delete and Read on an object that is gone *)

Lemma errorOf_Some {A} (r : Res A) e : errorOf r = Some e -> r = Err e.
Proof. destruct r; simpl; intros H; inversion H; reflexivity. Qed.

Lemma addressAnswer_Some method api config d err :
  addressAnswer method api config d = Some err ->
  exists url, replaceVars d config addressUrl = Ok url /\
              sendRequest api method url None = Err err.
Proof.
  unfold addressAnswer. destruct (replaceVars d config addressUrl) as [url | | ];
    try discriminate.
  intros H. exists url. split; [reflexivity | apply errorOf_Some, H].
Qed.

(** C2, as the controllers have it.  Address Delete takes a NotFound answer
    to its request for a success: it returns nil and does not poll.  Route Delete returns every error of its request, NotFound
    included, wrapped as "Error deleting route", without polling and with the
    state as it was. *)
Theorem C2_delete_not_found :
  notFoundIsSuccess resourceComputeAddressDelete (addressAnswer "DELETE") /\
  (forall api config d err,
     routeDeleteAnswer api config d = Some err ->
     let r := run (resourceComputeRouteDelete api config) d in
     result r = Err (Errorf "Error deleting route: " err) /\
     noPoll (trace r) /\ final r = d).
Proof.
  split.
  - intros api config d err Hans Hnf.
    apply addressAnswer_Some in Hans as [url [Hurl Hsend]].
    unfold resourceComputeAddressDelete, handleNotFoundError. unfold_m.
    rewrite Hurl. cbn. rewrite Hsend, Hnf. cbn.
    split; [reflexivity | ]. repeat constructor.
  - intros api config d err Hans r. subst r.
    apply errorOf_Some in Hans.
    unfold resourceComputeRouteDelete. unfold_m. rewrite Hans. cbn.
    split; [reflexivity | split; [repeat constructor | reflexivity]].
Qed.

Lemma C2_delete_not_found_witness :
  result (run (resourceComputeAddressDelete goneApi sampleConfig) sampleAddress) = Ok tt /\
  noPoll (trace (run (resourceComputeAddressDelete goneApi sampleConfig) sampleAddress)).
Proof.
  apply (proj1 C2_delete_not_found goneApi sampleConfig sampleAddress
           notFound); reflexivity.
Defined.

(** C2 as stated does not hold for routes: a NotFound answer makes Route
    Delete return an error. *)
Lemma C2_route_delete_not_found_errors :
  ~ notFoundIsSuccess resourceComputeRouteDelete routeDeleteAnswer.
Proof.
  intros H.
  destruct (H goneApi sampleConfig (SetId "route1" sampleRoute)
              notFound eq_refl eq_refl) as [Hres _].
  vm_compute in Hres. discriminate Hres.
Qed.

(** C3, as the controllers have it.  Address Read takes a NotFound answer to
    its request for "the resource is absent": it returns nil with the
    identity dropped and the fields untouched, and it returns any other error
    wrapped, with the state as it was.  Route Read returns every error of its
    request, NotFound included, wrapped as "Error reading route", with the
    state as it was. *)
Theorem C3_read_not_found :
  notFoundIsAbsent resourceComputeAddressRead (addressAnswer "GET") /\
  (forall api config d err,
     addressAnswer "GET" api config d = Some err ->
     let r := run (resourceComputeAddressRead api config) d in
     rd_attrs (final r) = rd_attrs d /\
     (isNotFound err = false ->
      final r = d /\
      result r = Err (Errorf ("Error reading "
                              +:+ ("ComputeAddress " +:+ dquote +:+ Id d +:+ dquote)
                              +:+ ": ") err))) /\
  (forall api config d err,
     routeReadAnswer api config d = Some err ->
     let r := run (resourceComputeRouteRead api config) d in
     result r = Err (Errorf "Error reading route: " err) /\ final r = d).
Proof.
  split; [ | split].
  - intros api config d err Hans Hnf.
    apply addressAnswer_Some in Hans as [url [Hurl Hsend]].
    unfold resourceComputeAddressRead, handleNotFoundError. unfold_m.
    rewrite Hurl. cbn. rewrite Hsend, Hnf. cbn.
    split; reflexivity.
  - intros api config d err Hans r. subst r.
    apply addressAnswer_Some in Hans as [url [Hurl Hsend]].
    unfold resourceComputeAddressRead, handleNotFoundError. unfold_m.
    rewrite Hurl. cbn. rewrite Hsend. destruct (isNotFound err); cbn.
    + split; [reflexivity | discriminate].
    + split; [reflexivity | intros _; split; reflexivity].
  - intros api config d err Hans r. subst r.
    apply errorOf_Some in Hans.
    unfold resourceComputeRouteRead. unfold_m. rewrite Hans. cbn.
    split; reflexivity.
Qed.

Lemma C3_read_not_found_witness :
  result (run (resourceComputeAddressRead goneApi sampleConfig) sampleAddress) = Ok tt /\
  Id (final (run (resourceComputeAddressRead goneApi sampleConfig) sampleAddress)) = "".
Proof.
  apply (proj1 C3_read_not_found goneApi sampleConfig sampleAddress
           notFound); reflexivity.
Defined.

(** C3 as stated does not hold for routes: on NotFound Route Read returns an
    ordinary error and the identity stays. *)
Lemma C3_route_read_not_found_errors :
  ~ notFoundIsAbsent resourceComputeRouteRead routeReadAnswer.
Proof.
  intros H.
  destruct (H goneApi sampleConfig (SetId "route1" sampleRoute)
              notFound eq_refl eq_refl) as [Hres _].
  vm_compute in Hres. discriminate Hres.
Qed.

(** ** Read of an address that exists *)

Lemma Set_Ok k v d d' :
  Set_ k v d = Ok d' ->
  rd_schema d' = rd_schema d /\ rd_id d' = rd_id d /\
  rd_attrs d' = <[k := v]> (rd_attrs d).
Proof.
  unfold Set_. destruct (lookupSchema k (rd_schema d)) as [s | ]; [ | discriminate].
  destruct (fits s v); [ | discriminate].
  intros H. inversion H. simpl. auto.
Qed.

Lemma Set_lookup k v d d' j :
  Set_ k v d = Ok d' ->
  rd_attrs d' !! j = if String.eqb j k then Some v else rd_attrs d !! j.
Proof.
  intros H. apply Set_Ok in H as (_ & _ & ->).
  destruct (String.eqb_spec j k) as [-> | Hne].
  - apply lookup_insert_eq.
  - apply lookup_insert_ne. congruence.
Qed.

Lemma Set_schema k v d d' : Set_ k v d = Ok d' -> rd_schema d' = rd_schema d.
Proof. intros H. apply Set_Ok in H. tauto. Qed.

Lemma getProject_ext d d' config :
  rd_schema d' = rd_schema d ->
  rd_attrs d' !! "project" = rd_attrs d !! "project" ->
  getProject d' config = getProject d config.
Proof.
  intros Hs Ha. unfold getProject, GetOk, Get. rewrite Hs, Ha. reflexivity.
Qed.

#[local] Arguments flattenComputeAddressAddressType : simpl never.
#[local] Arguments flattenComputeAddressSubnetwork : simpl never.
#[local] Arguments flattenComputeAddressRegion : simpl never.
#[local] Arguments assertString : simpl never.
#[local] Arguments Set_ : simpl never.

Ltac read_steps :=
  unfold resourceComputeAddressRead, dSet in *; unfold_m;
  repeat (step; try discriminate).

Ltac lookups :=
  repeat (erewrite Set_lookup by eassumption; simpl).

Lemma address_read_hydrates api config d res :
  addressFetched api config d = Some res ->
  let r := run (resourceComputeAddressRead api config) d in
  result r = Ok tt ->
  (forall k w fl, In (k, w, fl) addressReadCodec ->
     exists v, fl (field w res) = Ok v /\ rd_attrs (final r) !! k = Some v) /\
  (exists s, field "selfLink" res = VString s /\
     rd_attrs (final r) !! "self_link" = Some (VString (ConvertSelfLinkToV1 s))) /\
  (exists p, getProject d config = Ok p /\
     rd_attrs (final r) !! "project" = Some (VString p)).
Proof.
  intros Hf r Hres. subst r. unfold addressFetched in Hf.
  read_steps.
  inversion Hf; subst; clear Hf.
  split; [ | split].
  - intros k w fl Hin. simpl in Hin.
    repeat (destruct Hin as [Heq | Hin]; [inversion Heq; subst; clear Heq | ]);
      try contradiction; eexists; (split; [eassumption || reflexivity | lookups; reflexivity]).
  - unfold assertString in *.
    destruct (field "selfLink" res) as [ | s | | | ]; try discriminate.
    exists s. split; [reflexivity | ]. lookups. congruence.
  - eexists. split; [ | lookups; reflexivity].
    erewrite <- getProject_ext; [eassumption | | ].
    + repeat (erewrite Set_schema by eassumption). reflexivity.
    + lookups. reflexivity.
Qed.

(** C9, as the controllers have it.  A successful Address Read of an object
    that exists leaves a value under each of the eleven declared fields: nine
    are what the flatten function of the codec makes of the wire field,
    [self_link] is the [selfLink] of the object brought to v1, and [project]
    is the project of the resource (its own field or the ambient default), not
    a field of the object.  Route Read writes nothing: it leaves the state as
    it found it. *)
Theorem C9_read_hydrates :
  (forall api config d res,
     addressFetched api config d = Some res ->
     let r := run (resourceComputeAddressRead api config) d in
     result r = Ok tt ->
     (forall k w fl, In (k, w, fl) addressReadCodec ->
        exists v, fl (field w res) = Ok v /\ rd_attrs (final r) !! k = Some v) /\
     (exists s, field "selfLink" res = VString s /\
        rd_attrs (final r) !! "self_link" = Some (VString (ConvertSelfLinkToV1 s))) /\
     (exists p, getProject d config = Ok p /\
        rd_attrs (final r) !! "project" = Some (VString p))) /\
  writesEveryField addressSchema resourceComputeAddressRead addressFound /\
  (forall api config d, final (run (resourceComputeRouteRead api config) d) = d).
Proof.
  split; [ | split].
  - intros api config d res Hf. apply address_read_hydrates, Hf.
  - intros api config d Hfound Hres k s Hin. unfold addressFound in Hfound.
    destruct (addressFetched api config d) as [res | ] eqn:Hf; [ | discriminate].
    destruct (address_read_hydrates api config d res Hf Hres)
      as (Hcodec & (sl & _ & Hsl) & (p & _ & Hp)).
    simpl in Hin.
    repeat (destruct Hin as [Heq | Hin];
            [inversion Heq; subst; clear Heq | ]); try contradiction;
      try (rewrite Hsl; eexists; reflexivity);
      try (rewrite Hp; eexists; reflexivity).
    all: match goal with
         | |- is_Some (_ !! ?k) =>
             first
               [ destruct (Hcodec k k _ ltac:(simpl; eauto 12)) as (v & _ & ->)
               | destruct (Hcodec k "addressType" _ ltac:(simpl; eauto 12)) as (v & _ & ->)
               | destruct (Hcodec k "networkTier" _ ltac:(simpl; eauto 12)) as (v & _ & ->)
               | destruct (Hcodec k "creationTimestamp" _ ltac:(simpl; eauto 12))
                   as (v & _ & ->) ]
         end; eexists; reflexivity.
  - intros api config d. unfold resourceComputeRouteRead. unfold_m.
    destruct (RoutesGet api (Project config) (Id d)); reflexivity.
Qed.

Lemma C9_read_hydrates_witness :
  rd_attrs (final (run (resourceComputeAddressRead
                          (addressApi Succeeded
                             {[ "name" := VString "addr1";
                                "addressType" := VString "INTERNAL";
                                "networkTier" := VString "PREMIUM";
                                "selfLink" := VString
       "https://www.googleapis.com/compute/beta/projects/p1/regions/r1/addresses/addr1" ]})
                          sampleConfig) sampleAddress)) !! "self_link"
  = Some (VString
       "https://www.googleapis.com/compute/v1/projects/p1/regions/r1/addresses/addr1").
Proof.
  edestruct (proj1 C9_read_hydrates) as (_ & (s & Hs & Hsl) & _);
    [ | | rewrite Hsl ]; [reflexivity | reflexivity | ].
  vm_compute in Hs. inversion Hs. reflexivity.
Defined.

(** C9 as stated does not hold for routes: a successful Route Read of a
    route that exists leaves the declared fields as they were, here unset. *)
Lemma C9_route_read_writes_nothing :
  ~ writesEveryField routeSchema resourceComputeRouteRead routeFound.
Proof.
  intros H.
  destruct (H (routeApi Succeeded) sampleConfig unreadRoute eq_refl eq_refl
              "name" (plain TypeString true false true)) as [v Hv].
  - simpl. auto.
  - vm_compute in Hv. discriminate Hv.
Qed.

(** ** The type assertion on [selfLink] *)

Lemma flatten_nil_tolerant k w fl :
  In (k, w, fl) addressReadCodec -> exists v, fl VNil = Ok v.
Proof.
  intros Hin. simpl in Hin.
  repeat (destruct Hin as [Heq | Hin]; [inversion Heq; subst; clear Heq | ]);
    try contradiction; eexists; reflexivity.
Qed.

(** A rejected field contradicts [codecFieldsAccepted]. *)
Ltac rejected Hacc :=
  exfalso;
  match goal with
  | H : Set_ ?k ?v ?di = Err _ |- _ =>
      let v' := fresh "v" in
      let s := fresh "s" in
      let Hfl := fresh "Hfl" in
      let Hls := fresh "Hls" in
      let Hfits := fresh "Hfits" in
      destruct (Hacc k _ _ ltac:(simpl; eauto 12)) as (v' & s & Hfl & Hls & Hfits);
      unfold flattenComputeAddressAddress, flattenComputeAddressCreationTimestamp,
        flattenComputeAddressDescription, flattenComputeAddressName,
        flattenComputeAddressNetworkTier, flattenComputeAddressUsers in Hfl;
      assert (v' = v) by congruence; subst v';
      unfold Set_ in H;
      repeat match goal with
             | E : Set_ _ _ _ = Ok _ |- _ => apply Set_schema in E
             end;
      repeat match goal with
             | E : rd_schema _ = rd_schema _ |- _ => rewrite E in *; clear E
             end;
      rewrite Hls, Hfits in H; discriminate H
  end.

Lemma self_link_assertion api config d res :
  addressFetched api config d = Some res ->
  isString (field "selfLink" res) = false ->
  let r := result (run (resourceComputeAddressRead api config) d) in
  r <> Ok tt /\
  (r = Panic \/ exists e, r = Err (readError e)) /\
  (codecFieldsAccepted d res -> r = Panic).
Proof.
  intros Hf Hsl r. subst r. unfold addressFetched in Hf.
  read_steps.
  all: inversion Hf; subst; clear Hf.
  all: try match goal with
           | H : assertString _ = Ok _ |- _ =>
               unfold assertString in H; destruct (field "selfLink" _);
               discriminate
           | H : assertString _ = Err _ |- _ =>
               unfold assertString in H; destruct (field "selfLink" _);
               discriminate
           end.
  all: try match goal with
           | H : ?fl (field ?w ?r) = Err _ |- _ =>
               exfalso; clear - H;
               unfold fl, NameFromSelfLinkStateFunc, assertString in H;
               destruct (field w r); try discriminate H;
               destruct (String.eqb _ _); discriminate H
           end.
  all: split; [discriminate | split].
  all: try (left; reflexivity).
  all: try (right; eexists; reflexivity).
  all: try (intros _; reflexivity).
  all: try (intros Hacc; rejected Hacc).
  all: intros Hacc; exfalso.
  all: match goal with
       | H : ?fl (field ?w _) = Panic |- _ =>
           destruct (Hacc _ w fl ltac:(simpl; eauto 12)) as (v' & s & Hfl & _);
           congruence
       end.
Qed.

(** C10, as the controller has it.  When the fetched object has no string
    under [selfLink], Address Read never returns nil: it ends in a panic, at
    the assertion on [selfLink] or at an earlier assertion of a flatten
    function, unless the framework rejects one of the nine fields written
    before, in which case Read returns that error in the ordinary way.  When
    the nine fields are accepted it does panic.  Every flatten function of the
    codec takes nil without panicking. *)
Theorem C10_self_link_assertion :
  (forall api config d res,
     addressFetched api config d = Some res ->
     isString (field "selfLink" res) = false ->
     let r := result (run (resourceComputeAddressRead api config) d) in
     r <> Ok tt /\
     (r = Panic \/ exists e, r = Err (readError e)) /\
     (codecFieldsAccepted d res -> r = Panic)) /\
  (forall k w fl, In (k, w, fl) addressReadCodec -> exists v, fl VNil = Ok v).
Proof.
  split.
  - intros api config d res. apply self_link_assertion.
  - apply flatten_nil_tolerant.
Qed.

Lemma C10_self_link_assertion_witness :
  result (run (resourceComputeAddressRead (addressApi Succeeded ∅) sampleConfig)
              sampleAddress) = Panic.
Proof.
  apply (proj1 C10_self_link_assertion (addressApi Succeeded ∅) sampleConfig
           sampleAddress ∅); [reflexivity | reflexivity | ].
  intros k w fl Hin. simpl in Hin.
  repeat (destruct Hin as [Heq | Hin]; [inversion Heq; subst; clear Heq | ]);
    try contradiction; eexists; eexists; repeat split; reflexivity.
Defined.

(** C10 as stated does not hold: an answer without [selfLink] whose
    [address] is a list makes Read return an ordinary error, the one of
    [d.Set], before the assertion is reached. *)
Lemma C10_rejected_field_returns_error :
  ~ selfLinkAssertionAlwaysFails.
Proof.
  intros H.
  specialize (H (addressApi Succeeded {[ "address" := VList [VString "10.0.0.1"] ]})
                sampleConfig sampleAddress
                {[ "address" := VList [VString "10.0.0.1"] ]} eq_refl eq_refl).
  vm_compute in H. discriminate H.
Qed.

(** ** The payload of Create *)

Lemma payloadSound_empty d config : payloadSound d config ∅.
Proof. intros key prop H. rewrite lookup_empty in H. discriminate H. Qed.

Lemma payloadSound_addProp d config obj key f expand prop :
  In (key, f, expand) payloadFields ->
  expand (Get f d) d config = Ok prop ->
  payloadSound d config obj ->
  payloadSound d config (addProp key f prop d obj).
Proof.
  intros Hin Hexp Hobj. unfold addProp, GetOkExists.
  destruct (negb (isEmptyValue prop) &&
            ((match rd_attrs d !! f with Some _ => true | None => false end)
             || negb (DeepEqual (Get f d) prop))) eqn:Hcond; [ | exact Hobj].
  apply andb_true_iff in Hcond as [Hne Hset].
  intros key' prop' Hlook.
  destruct (decide (key = key')) as [<- | Hneq].
  - rewrite lookup_insert_eq in Hlook. inversion Hlook; subst prop'.
    split; [apply negb_true_iff, Hne | ].
    exists f, expand. split; [exact Hin | split; [exact Hexp | ]].
    unfold GetOkExists. simpl.
    apply orb_true_iff in Hset as [Hset | Hset]; [left; exact Hset | right].
    apply DeepEqual_false, negb_true_iff, Hset.
  - rewrite lookup_insert_ne in Hlook by exact Hneq. apply Hobj, Hlook.
Qed.

Lemma addressPayload_sound d config obj :
  addressPayload d config = Ok obj -> payloadSound d config obj.
Proof.
  unfold addressPayload, andThen.
  unfold expandComputeAddressAddress at 1, expandComputeAddressAddressType at 1,
    expandComputeAddressDescription at 1, expandComputeAddressName at 1,
    expandComputeAddressNetworkTier at 1.
  destruct (expandComputeAddressSubnetwork (Get "subnetwork" d) d config)
    as [subnetworkProp | | ] eqn:Hsub; try discriminate.
  destruct (expandComputeAddressRegion (Get "region" d) d config)
    as [regionProp | | ] eqn:Hreg; try discriminate.
  intros H. inversion H; subst obj; clear H.
  repeat (eapply payloadSound_addProp;
          [ simpl; eauto 10 | first [eassumption | reflexivity] | ]).
  apply payloadSound_empty.
Qed.

(** C5: every payload that Address Create submits is sound for the state
    Create started from: none of its values is empty, and each is the
    expansion of a declared field that was set or whose stored value differs
    from the expansion. *)
Theorem C5_payload_never_holds_empty_value :
  forall api config d method url obj,
    In (EvSendRequest method url (Some obj))
       (trace (run (resourceComputeAddressCreate api config) d)) ->
    payloadSound d config obj.
Proof.
  intros api config d method url obj Hin.
  unfold resourceComputeAddressCreate in *. unfold_m.
  repeat (step; try solve [simpl in Hin; contradiction]).
  all: try (eapply quiet_no_payload in Hin;
            [ | apply quiet_resourceComputeAddressRead | reflexivity ]).
  all: simpl in Hin;
    repeat (destruct Hin as [Hin | Hin]; [try discriminate Hin | ]);
    try contradiction.
  all: inversion Hin; subst; apply addressPayload_sound; assumption.
Qed.

Lemma C5_payload_never_holds_empty_value_witness :
  payloadSound internalAddress sampleConfig
    {[ "name" := VString "addr1"; "addressType" := VString "INTERNAL" ]}.
Proof.
  apply (C5_payload_never_holds_empty_value (addressApi Succeeded ∅) sampleConfig
           internalAddress "POST"
           "https://www.googleapis.com/compute/v1/projects/p1/regions/r1/addresses").
  vm_compute. auto.
Defined.

(** ** Import *)

#[local] Arguments String.append : simpl nomatch.

Lemma append_empty_r (s : string) : s +:+ "" = s.
Proof. induction s as [ | c s IH]; simpl; [reflexivity | rewrite IH; reflexivity]. Qed.

Lemma append_snoc (a : string) (c : ascii) (v : string) :
  (a +:+ String c "") +:+ v = a +:+ String c v.
Proof. induction a as [ | x a IH]; simpl; [reflexivity | rewrite IH; reflexivity]. Qed.

(** A group takes a prefix of the id and the rest of the format matches
    what is left. *)
Lemma capture_spec k n s : forall acc r,
  capture k n acc s = Some r ->
  exists v rest fs,
    s = v +:+ rest /\ r = (n, acc +:+ v) :: fs /\ k rest = Some fs.
Proof.
  induction s as [ | c s IH]; intros acc r; simpl.
  - destruct (String.eqb acc ""); [discriminate | ].
    destruct (k "") as [fs | ] eqn:Hk; [ | discriminate].
    intros H. inversion H. exists "", "", fs. rewrite !append_empty_r. auto.
  - assert (Hhere : (if String.eqb acc "" then None
                     else option_map (cons (n, acc)) (k (String c s))) = Some r ->
                    exists v rest fs,
                      String c s = v +:+ rest /\ r = (n, acc +:+ v) :: fs /\
                      k rest = Some fs).
    { destruct (String.eqb acc ""); [discriminate | ].
      destruct (k (String c s)) as [fs | ] eqn:Hk; [ | discriminate].
      intros H. inversion H. exists "", (String c s), fs.
      rewrite !append_empty_r. auto. }
    destruct (Ascii.eqb c "/"); [exact Hhere | ].
    destruct (capture k n (acc +:+ String c "") s) as [r' | ] eqn:Hc; [ | exact Hhere].
    intros H. inversion H; subst r'.
    apply IH in Hc as (v & rest & fs & -> & -> & Hk).
    exists (String c v), rest, fs. rewrite append_snoc. auto.
Qed.

(** A match is a match of the whole id: filling the groups of the format
    with the bindings gives the id back. *)
Lemma matchToks_render ts : forall s fields,
  matchToks ts s = Some fields -> render ts fields = Some s.
Proof.
  induction ts as [ | [c | n] ts IH]; intros s fields; simpl.
  - destruct s; [ | discriminate]. intros H. inversion H. reflexivity.
  - destruct s as [ | c' s]; [discriminate | ].
    destruct (Ascii.eqb_spec c c') as [<- | ]; [ | discriminate].
    intros H. apply IH in H. rewrite H. reflexivity.
  - intros H. apply capture_spec in H as (v & rest & fs & -> & -> & Hk).
    apply IH in Hk. simpl. rewrite String.eqb_refl, Hk. reflexivity.
Qed.

(** The bindings come from the first format of the list that matches. *)
Lemma firstMatch_first idRegexes : forall importId fields,
  firstMatch idRegexes importId = Ok (Some fields) ->
  exists (i : nat) idFormat,
    idRegexes !! i = Some idFormat /\
    matchFormat idFormat importId = Ok (Some fields) /\
    forall (j : nat) earlier,
      (j < i)%nat -> idRegexes !! j = Some earlier ->
      matchFormat earlier importId = Ok None.
Proof.
  induction idRegexes as [ | idFormat rest IH]; intros importId fields; simpl.
  - discriminate.
  - destruct (matchFormat idFormat importId) as [[found | ] | e | ] eqn:Hm;
      try discriminate.
    + intros H. inversion H; subst found.
      exists 0%nat, idFormat. split; [reflexivity | split; [exact Hm | ]].
      intros j earlier Hj. lia.
    + intros H. apply IH in H as (i & fmt & Hi & Hfmt & Hbefore).
      exists (S i), fmt. split; [exact Hi | split; [exact Hfmt | ]].
      intros [ | j] earlier Hj Hlook; simpl in Hlook.
      * inversion Hlook; subst earlier. exact Hm.
      * apply (Hbefore j); [lia | exact Hlook].
Qed.

Lemma resolve_qualifiedId config :
  resolve qualifiedId addressImportFormats config
  = Ok {[ "project" := "p1"; "region" := "r1"; "name" := "a1" ]}.
Proof. vm_compute. reflexivity. Qed.

(** C6: the formats are tried in the order they are listed and a format
    matches only the whole id.  So the id
    [projects/p1/regions/r1/addresses/a1] resolves, through the first format
    of the address importer, to project p1, region r1 and name a1, whatever the
    ambient defaults are; the bare-name format does not match it, and Import
    leaves exactly these three fields and the identity [p1/r1/a1]. *)
Theorem C6_import_precedence :
  (forall config,
     resolve qualifiedId addressImportFormats config
     = Ok {[ "project" := "p1"; "region" := "r1"; "name" := "a1" ]}) /\
  (forall config,
     resolve qualifiedId addressImportFormats config <> Ok {[ "name" := qualifiedId ]}) /\
  matchFormat "(?P<name>[^/]+)" qualifiedId = Ok None /\
  (forall idRegexes importId fields,
     firstMatch idRegexes importId = Ok (Some fields) ->
     exists (i : nat) idFormat,
       idRegexes !! i = Some idFormat /\
       matchFormat idFormat importId = Ok (Some fields) /\
       forall (j : nat) earlier,
         (j < i)%nat -> idRegexes !! j = Some earlier ->
         matchFormat earlier importId = Ok None) /\
  (forall ts s fields, matchToks ts s = Some fields -> render ts fields = Some s) /\
  (forall config,
     let r := run (resourceComputeAddressImport config) (emptyAddress qualifiedId) in
     result r = Ok [final r] /\
     Id (final r) = "p1/r1/a1" /\
     rd_attrs (final r)
     = {[ "project" := VString "p1"; "region" := VString "r1"; "name" := VString "a1" ]}).
Proof.
  split; [ | split; [ | split; [ | split; [ | split]]]].
  - apply resolve_qualifiedId.
  - intros config H. rewrite resolve_qualifiedId in H.
    apply (f_equal (fun r : Res (gmap string string) =>
                      match r with Ok m => m !! "project" | _ => None end)) in H.
    vm_compute in H. discriminate H.
  - vm_compute. reflexivity.
  - apply firstMatch_first.
  - apply matchToks_render.
  - intros config r. subst r.
    split; [vm_compute; reflexivity | split; vm_compute; reflexivity].
Qed.

Lemma C6_import_precedence_witness :
  exists (i : nat) idFormat,
    addressImportFormats !! i = Some idFormat /\
    matchFormat idFormat "p1/r1/a1"
    = Ok (Some [("project", "p1"); ("region", "r1"); ("name", "a1")]) /\
    forall (j : nat) earlier,
      (j < i)%nat -> addressImportFormats !! j = Some earlier ->
      matchFormat earlier "p1/r1/a1" = Ok None.
Proof.
  apply (proj1 (proj2 (proj2 (proj2 C6_import_precedence)))).
  vm_compute. reflexivity.
Defined.

(** Whatever the resolver answers, Import goes on: when no format matches,
    the state is as it was and the identity is built from it. *)
Lemma import_ignores_resolver_error config d e id_ :
  resolveFields (Id d) addressImportFormats config = Err e ->
  replaceVars d config "{{project}}/{{region}}/{{name}}" = Ok id_ ->
  result (run (resourceComputeAddressImport config) d) = Ok [SetId id_ d].
Proof.
  intros Hres Hid.
  unfold resourceComputeAddressImport, discard, parseImportId. unfold_m.
  rewrite Hres. cbn. rewrite Hid. reflexivity.
Qed.

Lemma matchFormat_compiled idFormat ts importId :
  compile 0 None idFormat = Some ts ->
  matchFormat idFormat importId = Ok (matchToks ts importId).
Proof. intros H. unfold matchFormat. rewrite H. reflexivity. Qed.

(** The resolver of the address importer answers with a field map or with
    the error that no pattern matched. *)
Lemma resolve_fields_or_error importId config :
  (exists fields, resolve importId addressImportFormats config = Ok fields) \/
  resolve importId addressImportFormats config = Err (NoPatternMatchedError importId).
Proof.
  unfold resolve, resolveFields, addressImportFormats, firstMatch.
  repeat (erewrite matchFormat_compiled by (vm_compute; reflexivity)).
  repeat match goal with
         | |- context [matchToks ?ts importId] => destruct (matchToks ts importId)
         end; simpl; eauto.
Qed.

(** C7, at the import id [/]: the resolver answers with a field map or with
    the error that no pattern matched; no format of the address importer
    matches [/], and the resolver reports that, as does [parseImportId];
    Import does not look at the answer and succeeds, with no field resolved
    from the id and the identity [p1/r1/] built from the ambient defaults and
    an empty name.  The same happens for [r1/a1]. *)
Theorem C7_import_drops_resolver_error :
  (forall importId config,
     (exists fields, resolve importId addressImportFormats config = Ok fields) \/
     resolve importId addressImportFormats config
     = Err (NoPatternMatchedError importId)) /\
  resolve "/" addressImportFormats sampleConfig = Err (NoPatternMatchedError "/") /\
  result (run (parseImportId addressImportFormats sampleConfig) (emptyAddress "/"))
  = Err (NoPatternMatchedError "/") /\
  result (run (resourceComputeAddressImport sampleConfig) (emptyAddress "/"))
  = Ok [SetId "p1/r1/" (emptyAddress "/")] /\
  resolve "r1/a1" addressImportFormats sampleConfig = Err (NoPatternMatchedError "r1/a1") /\
  result (run (resourceComputeAddressImport sampleConfig) (emptyAddress "r1/a1"))
  = Ok [SetId "p1/r1/" (emptyAddress "r1/a1")].
Proof.
  split; [apply resolve_fields_or_error | ].
  vm_compute. repeat split.
Qed.

(** ** The field codec, there and back *)

Lemma append_assoc_string (a b c : string) : (a +:+ b) +:+ c = a +:+ (b +:+ c).
Proof. induction a as [ | x a IH]; simpl; [reflexivity | rewrite IH; reflexivity]. Qed.

Lemma link_shape a1 p a2 t a3 n :
  a1 +:+ (p +:+ (a2 +:+ (t +:+ (a3 +:+ n))))
  = (a1 +:+ (p +:+ (a2 +:+ t))) +:+ (a3 +:+ n).
Proof. rewrite !append_assoc_string. reflexivity. Qed.

Lemma splitSlash_nonempty s : splitSlash s <> [].
Proof.
  destruct s as [ | c s]; simpl; [discriminate | ].
  destruct (Ascii.eqb c "/"); [discriminate | ].
  destruct (splitSlash s); discriminate.
Qed.

Lemma splitSlash_app a : forall b,
  splitSlash (a +:+ String "/" b) = (splitSlash a ++ splitSlash b)%list.
Proof.
  induction a as [ | c a IH]; intros b; simpl.
  - reflexivity.
  - rewrite IH. destruct (Ascii.eqb c "/"); [reflexivity | ].
    destruct (splitSlash a) as [ | x xs] eqn:Ha; [ | reflexivity].
    exfalso. exact (splitSlash_nonempty a Ha).
Qed.

Lemma splitSlash_short s : hasSlash s = false -> splitSlash s = [s].
Proof.
  induction s as [ | c s IH]; simpl; [reflexivity | ].
  intros H. apply orb_false_iff in H as [Hc Hs].
  rewrite Hc, (IH Hs). reflexivity.
Qed.

Lemma splitSlash_segments s : Forall (fun x => hasSlash x = false) (splitSlash s).
Proof.
  induction s as [ | c s IH]; simpl.
  - repeat constructor.
  - destruct (Ascii.eqb c "/") eqn:Hc.
    + constructor; [reflexivity | exact IH].
    + destruct (splitSlash s) as [ | x xs].
      * repeat constructor. simpl. rewrite Hc. reflexivity.
      * inversion IH; subst. constructor; [ | assumption].
        simpl. rewrite Hc. assumption.
Qed.

Lemma lastSegment_link a n :
  hasSlash n = false -> lastSegment (a +:+ String "/" n) = n.
Proof.
  intros Hn. unfold lastSegment.
  rewrite splitSlash_app, (splitSlash_short n Hn). apply last_last.
Qed.

Lemma referencePath_segments s : Forall (fun x => hasSlash x = false) (referencePath s).
Proof.
  unfold referencePath. pose proof (splitSlash_segments s) as H.
  destruct (splitSlash s) as [ | x1 [ | x2 [ | x3 [ | x4 [ | x5 path]]]]]; try exact H.
  destruct (String.eqb x1 "https:" && String.eqb x2 "" && String.eqb x4 "compute");
    [ | exact H].
  do 5 (apply Forall_inv_tail in H). exact H.
Qed.

Lemma referencePath_short s : hasSlash s = false -> referencePath s = [s].
Proof. intros H. unfold referencePath. rewrite (splitSlash_short s H). reflexivity. Qed.

Lemma ConvertSelfLinkToV1_relative s : ConvertSelfLinkToV1 (String "p" s) = String "p" s.
Proof.
  unfold ConvertSelfLinkToV1. cbn [splitSlash].
  change (Ascii.eqb "p" "/") with false. cbv iota.
  destruct (splitSlash s) as [ | x [ | x2 [ | x3 [ | x4 [ | x5 [ | x6 rest]]]]]];
    reflexivity.
Qed.

Lemma ConvertSelfLinkToV1_RelativeLink f :
  ConvertSelfLinkToV1 (RegionalRelativeLink f) = RegionalRelativeLink f.
Proof.
  unfold RegionalRelativeLink. destruct (String.eqb (rf_Name f) ""); [reflexivity | ].
  apply ConvertSelfLinkToV1_relative.
Qed.

Lemma globalOfPath_name resourceType fieldValue path d config f :
  globalOfPath resourceType fieldValue path d config = Ok f -> In (gf_Name f) path.
Proof.
  unfold globalOfPath.
  destruct path as [ | a [ | p [ | t [ | n [ | x rest]]]]]; try discriminate.
  - destruct (getProject d config); try discriminate.
    intros H. inversion H. simpl. auto.
  - destruct (String.eqb a "projects" && String.eqb t resourceType); [ | discriminate].
    intros H. inversion H. simpl. auto.
Qed.

Lemma parseGlobalFieldValue_name resourceType s d config e f :
  parseGlobalFieldValue resourceType s d config e = Ok f ->
  hasSlash (gf_Name f) = false.
Proof.
  unfold parseGlobalFieldValue. destruct (String.eqb s "").
  - destruct e; [ | discriminate]. intros H. inversion H. reflexivity.
  - intros H. apply globalOfPath_name in H.
    pose proof (referencePath_segments s) as Hseg.
    rewrite Forall_forall in Hseg. apply Hseg, list_elem_of_In, H.
Qed.

Lemma lastSegment_GlobalRelativeLink f :
  hasSlash (gf_Name f) = false -> lastSegment (GlobalRelativeLink f) = gf_Name f.
Proof.
  intros Hn. unfold GlobalRelativeLink.
  destruct (String.eqb_spec (gf_Name f) "") as [-> | _]; [reflexivity | ].
  rewrite link_shape.
  change ("/" +:+ gf_Name f) with (String "/" (gf_Name f)).
  apply lastSegment_link, Hn.
Qed.

Lemma subnetwork_round_trip s d config f :
  parseRegionalFieldValue "subnetworks" s d config true = Ok f ->
  roundTrip expandComputeAddressSubnetwork flattenComputeAddressSubnetwork
            (VString s) d config
  = Ok (VString (RegionalRelativeLink f)).
Proof.
  intros H. unfold roundTrip, expandComputeAddressSubnetwork, assertString.
  rewrite H. simpl. unfold flattenComputeAddressSubnetwork.
  rewrite ConvertSelfLinkToV1_RelativeLink. reflexivity.
Qed.

Lemma region_round_trip s d config f :
  parseGlobalFieldValue "regions" s d config true = Ok f ->
  roundTrip expandComputeAddressRegion flattenComputeAddressRegion
            (VString s) d config
  = Ok (VString (gf_Name f)).
Proof.
  intros H. unfold roundTrip, expandComputeAddressRegion, assertString.
  rewrite H. simpl.
  unfold flattenComputeAddressRegion, NameFromSelfLinkStateFunc, assertString.
  rewrite lastSegment_GlobalRelativeLink; [reflexivity | ].
  eapply parseGlobalFieldValue_name, H.
Qed.

Lemma short_name_round_trip s d config p r :
  s <> "" -> hasSlash s = false ->
  getProject d config = Ok p -> getRegion d config = Ok r ->
  roundTrip expandComputeAddressSubnetwork flattenComputeAddressSubnetwork
            (VString s) d config
  = Ok (VString ("projects/" +:+ p +:+ "/regions/" +:+ r +:+ "/subnetworks/" +:+ s)) /\
  roundTrip expandComputeAddressRegion flattenComputeAddressRegion
            (VString s) d config
  = Ok (VString s).
Proof.
  intros Hne Hs Hp Hr. apply String.eqb_neq in Hne. split.
  - rewrite (subnetwork_round_trip s d config
               {| rf_Project := p; rf_Region := r; rf_Name := s;
                  rf_resourceType := "subnetworks" |}).
    + unfold RegionalRelativeLink. simpl. rewrite Hne. reflexivity.
    + unfold parseRegionalFieldValue. rewrite Hne, (referencePath_short s Hs).
      simpl. rewrite Hp, Hr. reflexivity.
  - rewrite (region_round_trip s d config
               {| gf_Project := p; gf_Name := s; gf_resourceType := "regions" |}).
    + reflexivity.
    + unfold parseGlobalFieldValue. rewrite Hne, (referencePath_short s Hs).
      simpl. rewrite Hp. reflexivity.
Qed.

(** C8, as the codec has it.  Through expand and then flatten, [address],
    [description], [name] and [network_tier] come back as they were;
    [address_type] comes back as it was, "EXTERNAL" when absent or empty; a
    [subnetwork] that expands comes back as its canonical relative link
    [projects/P/regions/R/subnetworks/N], whichever accepted shape it had, so
    a short name does not come back as it was; a [region] that expands comes
    back as its short name, so a short name does. *)
Theorem C8_codec_round_trip :
  (forall f expand flatten, In (f, expand, flatten) scalarCodec ->
     forall v d config, roundTrip expand flatten v d config = Ok v) /\
  (forall v d config, v = VNil \/ isString v = true ->
     roundTrip expandComputeAddressAddressType flattenComputeAddressAddressType
               v d config
     = Ok (canonicalForm "address_type" v)) /\
  (forall s d config f,
     parseRegionalFieldValue "subnetworks" s d config true = Ok f ->
     roundTrip expandComputeAddressSubnetwork flattenComputeAddressSubnetwork
               (VString s) d config
     = Ok (VString (RegionalRelativeLink f))) /\
  (forall s d config f,
     parseGlobalFieldValue "regions" s d config true = Ok f ->
     roundTrip expandComputeAddressRegion flattenComputeAddressRegion
               (VString s) d config
     = Ok (VString (gf_Name f))) /\
  (forall s d config p r,
     s <> "" -> hasSlash s = false ->
     getProject d config = Ok p -> getRegion d config = Ok r ->
     roundTrip expandComputeAddressSubnetwork flattenComputeAddressSubnetwork
               (VString s) d config
     = Ok (VString ("projects/" +:+ p +:+ "/regions/" +:+ r +:+ "/subnetworks/" +:+ s)) /\
     roundTrip expandComputeAddressRegion flattenComputeAddressRegion
               (VString s) d config
     = Ok (VString s)).
Proof.
  split; [ | split; [ | split; [ | split]]].
  - intros f expand flatten Hin v d config. simpl in Hin.
    repeat (destruct Hin as [Heq | Hin]; [inversion Heq; subst; clear Heq | ]);
      try contradiction; reflexivity.
  - intros v d config [-> | Hv]; [reflexivity | ].
    destruct v as [ | s | | | ]; try discriminate Hv.
    unfold roundTrip, expandComputeAddressAddressType, andThen,
      flattenComputeAddressAddressType, canonicalForm. simpl.
    destruct (String.eqb s ""); reflexivity.
  - apply subnetwork_round_trip.
  - apply region_round_trip.
  - apply short_name_round_trip.
Qed.

Lemma C8_codec_round_trip_witness :
  roundTrip expandComputeAddressSubnetwork flattenComputeAddressSubnetwork
            (VString "https://www.googleapis.com/compute/v1/projects/p2/regions/r2/subnetworks/sub1")
            (emptyAddress "") sampleConfig
  = Ok (VString "projects/p2/regions/r2/subnetworks/sub1") /\
  roundTrip expandComputeAddressRegion flattenComputeAddressRegion
            (VString "r2") (emptyAddress "") sampleConfig
  = Ok (VString "r2").
Proof.
  split.
  - apply (proj1 (proj2 (proj2 C8_codec_round_trip))
             "https://www.googleapis.com/compute/v1/projects/p2/regions/r2/subnetworks/sub1"
             (emptyAddress "") sampleConfig
             {| rf_Project := "p2"; rf_Region := "r2"; rf_Name := "sub1";
                rf_resourceType := "subnetworks" |}).
    reflexivity.
  - apply (proj2 (proj2 (proj2 (proj2 C8_codec_round_trip)))
             "r2" (emptyAddress "") sampleConfig "p1" "r1");
      [discriminate | reflexivity | reflexivity | reflexivity].
Defined.

(** C8 as stated does not hold: a subnetwork given by its short name is not a
    self-link, yet it does not come back as it was but as the relative link
    built with the ambient project and region. *)
Lemma C8_short_subnetwork_not_identity :
  ~ codecRoundTrips.
Proof.
  intros H.
  specialize (H "subnetwork" expandComputeAddressSubnetwork
                flattenComputeAddressSubnetwork ltac:(simpl; auto 10)
                "sub1" (emptyAddress "") sampleConfig).
  vm_compute in H. discriminate H.
Qed.

(** * Further properties of the controllers *)

(** ** Route Delete *)

(** X4: once the deletion request is accepted Route Delete polls exactly
    once and never writes a field; it clears the identity only when the
    operation succeeded, and returns with the resource data as it found it
    when the operation failed or the wait gave up. *)
Theorem route_delete_outcomes api config d op :
  RoutesDelete api (Project config) (Id d) = Ok op ->
  let r := run (resourceComputeRouteDelete api config) d in
  trace r = [EvRoutesDelete (Project config) (Id d); EvPoll op] /\
  rd_attrs (final r) = rd_attrs d /\
  match poll api op with
  | Succeeded => result r = Ok tt /\ Id (final r) = ""
  | Failed detail => result r = Err (OperationError detail) /\ final r = d
  | TimedOut =>
      (exists e, result r = Err (Errorf "Error waiting for route to delete: " e)) /\
      final r = d
  end.
Proof.
  intros Hdel r. subst r. unfold resourceComputeRouteDelete. unfold_m.
  rewrite Hdel. cbn. destruct (poll api op); cbn; repeat split; eauto.
Qed.

Lemma route_delete_outcomes_witness :
  result (run (resourceComputeRouteDelete (routeApi Succeeded) sampleConfig)
              (SetId "route1" sampleRoute)) = Ok tt /\
  Id (final (run (resourceComputeRouteDelete (routeApi Succeeded) sampleConfig)
                 (SetId "route1" sampleRoute))) = "".
Proof.
  exact (proj2 (proj2 (route_delete_outcomes (routeApi Succeeded) sampleConfig
                         (SetId "route1" sampleRoute) sampleOperation eq_refl))).
Defined.

(** ** What the two Reads ask of the control plane *)

Lemma address_read_trace api config st :
  st_trace (snd (resourceComputeAddressRead api config st))
  = (st_trace st ++
     match replaceVars (st_d st) config addressUrl with
     | Ok url => [EvSendRequest "GET" url None]
     | _ => []
     end)%list.
Proof.
  unfold resourceComputeAddressRead, handleNotFoundError, dSet. unfold_m.
  repeat step; rewrite ?app_nil_r; reflexivity.
Qed.

(** X5: a Read asks the control plane one thing.  Route Read makes exactly
    one call, a get of the stored identity, and returns nil exactly when the
    route is found.  Address Read sends one GET without a body to the URL of
    the address, or nothing at all when that URL cannot be built; neither
    polls nor submits a payload. *)
Theorem reads_make_one_request :
  (forall api config d,
     let r := run (resourceComputeRouteRead api config) d in
     trace r = [EvRoutesGet (Project config) (Id d)] /\
     (result r = Ok tt <-> routeFound api config d = true)) /\
  (forall api config d,
     trace (run (resourceComputeAddressRead api config) d)
     = match replaceVars d config addressUrl with
       | Ok url => [EvSendRequest "GET" url None]
       | _ => []
       end).
Proof.
  split.
  - intros api config d r. subst r. unfold resourceComputeRouteRead, routeFound.
    unfold_m. destruct (RoutesGet api (Project config) (Id d)); cbn;
      (split; [reflexivity | split; intros H; (reflexivity || discriminate H)]).
  - intros api config d. unfold run, trace.
    rewrite address_read_trace. reflexivity.
Qed.

(** ** What Address Read leaves alone *)

Lemma Set_frame k' v d d' k :
  Set_ k' v d = Ok d' -> k <> k' -> rd_attrs d' !! k = rd_attrs d !! k.
Proof.
  intros H Hne. rewrite (Set_lookup _ _ _ _ k H).
  destruct (String.eqb_spec k k'); [contradiction | reflexivity].
Qed.

Lemma Set_id k v d d' : Set_ k v d = Ok d' -> rd_id d' = rd_id d.
Proof. intros H. apply Set_Ok in H. tauto. Qed.

Ltac chain_schema :=
  repeat match goal with
         | E : Set_ _ _ _ = Ok ?y |- context [rd_schema ?y] =>
             rewrite (Set_schema _ _ _ _ E)
         end.

Ltac chain_id :=
  repeat match goal with
         | E : Set_ _ _ _ = Ok ?y |- context [rd_id ?y] =>
             rewrite (Set_id _ _ _ _ E)
         end.

Ltac chain_frame Hk :=
  repeat match goal with
         | E : Set_ ?k' _ _ = Ok ?y |- context [rd_attrs ?y !! ?k] =>
             rewrite (Set_frame k' _ _ y k E)
               by (intros ->; apply Hk; simpl; auto 20)
         end.

Lemma address_read_frame api config st :
  let d := st_d st in
  let d' := st_d (snd (resourceComputeAddressRead api config st)) in
  rd_schema d' = rd_schema d /\
  (forall k, ~ In k (map fst addressSchema) -> rd_attrs d' !! k = rd_attrs d !! k) /\
  (Id d' = Id d \/
   exists err, addressAnswer "GET" api config d = Some err /\
               isNotFound err = true /\ Id d' = "").
Proof.
  unfold resourceComputeAddressRead, handleNotFoundError, dSet, addressAnswer, Id.
  unfold_m.
  repeat step.
  all: split; [chain_schema; reflexivity | split].
  all: try (intros k Hk; chain_frame Hk; reflexivity).
  all: try (left; chain_id; reflexivity).
  all: right; eexists; repeat split; eassumption.
Qed.

(** X12: whatever the outcome, error and panic included, Address Read keeps
    the schema of the resource data and every attribute that is not one of the
    eleven declared fields; when the object was fetched it keeps the identity
    too. *)
Theorem address_read_keeps_the_rest api config d :
  let r := run (resourceComputeAddressRead api config) d in
  rd_schema (final r) = rd_schema d /\
  (forall k, ~ In k (map fst addressSchema) ->
     rd_attrs (final r) !! k = rd_attrs d !! k) /\
  (addressFound api config d = true -> Id (final r) = Id d).
Proof.
  intros r. subst r. unfold run, final.
  destruct (address_read_frame api config {| st_d := d; st_trace := [] |})
    as (Hs & Hf & Hid).
  split; [exact Hs | split; [exact Hf | ]].
  intros Hfound. destruct Hid as [Hid | (err & Hans & _)]; [exact Hid | ].
  exfalso. cbn in Hans. unfold addressFound, addressFetched in Hfound.
  unfold addressAnswer in Hans.
  destruct (replaceVars d config addressUrl); try discriminate.
  destruct (sendRequest api "GET" a None); discriminate.
Qed.

Lemma address_read_keeps_the_rest_witness :
  let r := run (resourceComputeAddressRead
                  (addressApi Succeeded {[ "name" := VString "addr1" ]}) sampleConfig)
               sampleAddress in
  rd_attrs (final r) !! "labels" = None /\ Id (final r) = "p1/r1/addr1".
Proof.
  intros r.
  destruct (address_read_keeps_the_rest
              (addressApi Succeeded {[ "name" := VString "addr1" ]}) sampleConfig
              sampleAddress) as (_ & Hf & Hid).
  split.
  - apply (Hf "labels"). simpl. intros H.
    repeat (destruct H as [H | H]; [discriminate H | ]). exact H.
  - apply Hid. reflexivity.
Defined.

(** ** Address Delete *)

(** X14: Address Delete never writes to the resource data, except that a
    NotFound answer to the request drops the identity; in particular a
    successful deletion leaves the identity where it was.  Once the request is
    accepted and decoded it polls exactly once and returns the outcome of the
    wait as it is: nil, the error of the operation, or the timeout. *)
Theorem address_delete_outcomes api config d :
  let r := run (resourceComputeAddressDelete api config) d in
  (final r = d \/
   exists err, addressAnswer "DELETE" api config d = Some err /\
               isNotFound err = true /\ final r = SetId "" d) /\
  (forall url res project op,
     replaceVars d config addressUrl = Ok url ->
     sendRequest api "DELETE" url None = Ok res ->
     getProject d config = Ok project ->
     Convert res = Ok op ->
     final r = d /\
     trace r = [EvSendRequest "DELETE" url None; EvPoll op] /\
     match poll api op with
     | Succeeded => result r = Ok tt
     | Failed detail => result r = Err (OperationError detail)
     | TimedOut => exists msg, result r = Err (TimeoutError msg)
     end).
Proof.
  intros r. subst r. split.
  - unfold resourceComputeAddressDelete, handleNotFoundError, addressAnswer.
    unfold_m. repeat step; try (left; reflexivity).
    right. eexists. repeat split; eassumption.
  - intros url res project op Hurl Hsend Hproj Hconv.
    unfold resourceComputeAddressDelete. unfold_m.
    rewrite Hurl. cbn. rewrite Hsend. cbn. rewrite Hproj. cbn. rewrite Hconv. cbn.
    destruct (poll api op); cbn; repeat split; eauto.
Qed.

Lemma address_delete_outcomes_witness :
  let r := run (resourceComputeAddressDelete (addressApi Succeeded ∅) sampleConfig)
               sampleAddress in
  final r = sampleAddress /\ result r = Ok tt.
Proof.
  intros r.
  destruct (proj2 (address_delete_outcomes (addressApi Succeeded ∅) sampleConfig
                     sampleAddress)
              "https://www.googleapis.com/compute/v1/projects/p1/regions/r1/addresses/addr1"
              {[ "name" := VString "operation-1"; "status" := VString "RUNNING" ]}
              "p1"
              {| Op_Name := "operation-1"; Op_Status := "RUNNING"; Op_Error := None |}
              eq_refl eq_refl eq_refl eq_refl) as (Hd & _ & Hres).
  split; [exact Hd | exact Hres].
Defined.

(** ** Address Create, step by step *)

#[local] Arguments computeOperationWaitTime : simpl never.

(** X6: Address Create does not touch the resource data before the control
    plane has accepted the POST.  When a field does not expand nothing is
    sent; when the POST is answered with an error Create returns it as
    "Error creating Address", having sent that one request and nothing else. *)
Theorem address_create_before_acceptance api config d :
  let r := run (resourceComputeAddressCreate api config) d in
  (final r = d \/
   exists url obj res,
     hd_error (trace r) = Some (EvSendRequest "POST" url (Some obj)) /\
     sendRequest api "POST" url (Some obj) = Ok res) /\
  (forall e, addressPayload d config = Err e ->
     result r = Err e /\ trace r = []) /\
  (forall obj url e,
     addressPayload d config = Ok obj ->
     replaceVars d config createUrl = Ok url ->
     sendRequest api "POST" url (Some obj) = Err e ->
     result r = Err (Errorf "Error creating Address: " e) /\
     final r = d /\
     trace r = [EvSendRequest "POST" url (Some obj)]).
Proof.
  intros r. subst r. split; [ | split].
  - unfold resourceComputeAddressCreate, computeOperationWaitTime. unfold_m.
    repeat step; try (left; reflexivity).
    all: right; do 3 eexists.
    all: try rewrite address_read_trace.
    all: split; [cbn; reflexivity | eassumption].
  - intros e He. unfold resourceComputeAddressCreate. unfold_m.
    rewrite He. split; reflexivity.
  - intros obj url e Hobj Hurl Hsend. unfold resourceComputeAddressCreate. unfold_m.
    rewrite Hobj. cbn. unfold createUrl in Hurl. rewrite Hurl. cbn.
    rewrite Hsend. cbn. repeat split.
Qed.

Lemma address_create_before_acceptance_witness :
  let r := run (resourceComputeAddressCreate goneApi sampleConfig) badSubnetwork in
  trace r = [] /\
  trace (run (resourceComputeAddressCreate goneApi sampleConfig) internalAddress)
  = [EvSendRequest "POST"
       "https://www.googleapis.com/compute/v1/projects/p1/regions/r1/addresses"
       (Some {[ "name" := VString "addr1"; "addressType" := VString "INTERNAL" ]})].
Proof.
  intros r. split.
  - apply (proj1 (proj2 (address_create_before_acceptance goneApi sampleConfig
                           badSubnetwork))
             (Errorf "Invalid value for subnetwork: " (invalidReference "a/b"))).
    vm_compute. reflexivity.
  - apply (proj2 (proj2 (address_create_before_acceptance goneApi sampleConfig
                           internalAddress))
             {[ "name" := VString "addr1"; "addressType" := VString "INTERNAL" ]}
             "https://www.googleapis.com/compute/v1/projects/p1/regions/r1/addresses"
             notFound); vm_compute; reflexivity.
Defined.

(** X7: the remote interactions of one Address Create are, in this order, at
    most one POST with the payload, at most one poll and at most one GET
    without a body: Create never retries a request and never polls twice. *)
Theorem address_create_calls_in_order api config d :
  let t := trace (run (resourceComputeAddressCreate api config) d) in
  t = [] \/
  (exists url obj, t = [EvSendRequest "POST" url (Some obj)]) \/
  (exists url obj op, t = [EvSendRequest "POST" url (Some obj); EvPoll op]) \/
  (exists url obj op url',
     t = [EvSendRequest "POST" url (Some obj); EvPoll op;
          EvSendRequest "GET" url' None]).
Proof.
  intros t. subst t.
  unfold resourceComputeAddressCreate, computeOperationWaitTime. unfold_m.
  repeat step.
  all: try rewrite address_read_trace; cbn.
  all: try match goal with
           | |- context [match replaceVars ?d ?c ?u with _ => _ end] =>
               destruct (replaceVars d c u)
           end; cbn.
  all: first
         [ left; reflexivity
         | right; left; do 2 eexists; reflexivity
         | right; right; left; do 3 eexists; reflexivity
         | right; right; right; do 4 eexists; reflexivity ].
Qed.

(** X8: the identity is recorded as soon as the POST is accepted, before the
    answer is decoded.  When the answer does not decode into an operation,
    Create returns that error without polling, and the identity
    project/region/name it has just recorded stays: the rollback covers the
    wait only. *)
Theorem address_create_undecodable_answer api config d obj url res id_ project e :
  addressPayload d config = Ok obj ->
  replaceVars d config createUrl = Ok url ->
  sendRequest api "POST" url (Some obj) = Ok res ->
  replaceVars d config idTemplate = Ok id_ ->
  getProject (SetId id_ d) config = Ok project ->
  Convert res = Err e ->
  let r := run (resourceComputeAddressCreate api config) d in
  result r = Err e /\
  trace r = [EvSendRequest "POST" url (Some obj)] /\
  final r = SetId id_ d.
Proof.
  intros Hobj Hurl Hsend Hid Hproj Hconv r. subst r.
  unfold resourceComputeAddressCreate. unfold_m.
  rewrite Hobj. cbn. unfold createUrl in Hurl. rewrite Hurl. cbn.
  rewrite Hsend. cbn. unfold idTemplate in Hid. rewrite Hid. cbn.
  rewrite Hproj. cbn. rewrite Hconv. cbn. repeat split.
Qed.

Lemma address_create_undecodable_answer_witness :
  let r := run (resourceComputeAddressCreate undecodableApi sampleConfig)
               internalAddress in
  result r = Err (ErrorString "json: cannot unmarshal field name") /\
  trace r = [EvSendRequest "POST"
               "https://www.googleapis.com/compute/v1/projects/p1/regions/r1/addresses"
               (Some {[ "name" := VString "addr1"; "addressType" := VString "INTERNAL" ]})] /\
  final r = SetId "p1/r1/addr1" internalAddress.
Proof.
  apply (address_create_undecodable_answer undecodableApi sampleConfig internalAddress
           {[ "name" := VString "addr1"; "addressType" := VString "INTERNAL" ]}
           "https://www.googleapis.com/compute/v1/projects/p1/regions/r1/addresses"
           {[ "name" := VInt 7 ]} "p1/r1/addr1" "p1");
    vm_compute; reflexivity.
Defined.

(** X9: when the wait succeeds, Create ends as the Read of the state that
    carries the new identity: its outcome is the outcome of that Read, and
    when that Read fetches the object the identity recorded is
    project/region/name. *)
Theorem address_create_then_read api config d obj url res id_ project op :
  addressPayload d config = Ok obj ->
  replaceVars d config createUrl = Ok url ->
  sendRequest api "POST" url (Some obj) = Ok res ->
  replaceVars d config idTemplate = Ok id_ ->
  getProject (SetId id_ d) config = Ok project ->
  Convert res = Ok op ->
  poll api op = Succeeded ->
  let r := run (resourceComputeAddressCreate api config) d in
  r = resourceComputeAddressRead api config
        {| st_d := SetId id_ d;
           st_trace := [EvSendRequest "POST" url (Some obj); EvPoll op] |} /\
  (addressFound api config (SetId id_ d) = true -> Id (final r) = id_).
Proof.
  intros Hobj Hurl Hsend Hid Hproj Hconv Hpoll r.
  assert (Hr : r = resourceComputeAddressRead api config
                     {| st_d := SetId id_ d;
                        st_trace := [EvSendRequest "POST" url (Some obj); EvPoll op] |}).
  { subst r. unfold resourceComputeAddressCreate, computeOperationWaitTime. unfold_m.
    rewrite Hobj. cbn. unfold createUrl in Hurl. rewrite Hurl. cbn.
    rewrite Hsend. cbn. unfold idTemplate in Hid. rewrite Hid. cbn.
    rewrite Hproj. cbn. rewrite Hconv. cbn. rewrite Hpoll. cbn. reflexivity. }
  split; [exact Hr | ].
  intros Hfound. rewrite Hr. unfold final.
  destruct (address_read_frame api config
              {| st_d := SetId id_ d;
                 st_trace := [EvSendRequest "POST" url (Some obj); EvPoll op] |})
    as (_ & _ & [Hsame | (err & Hans & _)]).
  - exact Hsame.
  - exfalso. cbn in Hans. unfold addressFound, addressFetched in Hfound.
    unfold addressAnswer in Hans.
    destruct (replaceVars (SetId id_ d) config addressUrl); try discriminate.
    destruct (sendRequest api "GET" a None); discriminate.
Qed.

Lemma address_create_then_read_witness :
  Id (final (run (resourceComputeAddressCreate
                    (addressApi Succeeded {[ "selfLink" := VString "x" ]}) sampleConfig)
                 internalAddress)) = "p1/r1/addr1".
Proof.
  pose proof (address_create_then_read
                (addressApi Succeeded {[ "selfLink" := VString "x" ]}) sampleConfig
                internalAddress
                {[ "name" := VString "addr1"; "addressType" := VString "INTERNAL" ]}
                "https://www.googleapis.com/compute/v1/projects/p1/regions/r1/addresses"
                {[ "name" := VString "operation-1"; "status" := VString "RUNNING" ]}
                "p1/r1/addr1" "p1"
                {| Op_Name := "operation-1"; Op_Status := "RUNNING"; Op_Error := None |})
    as H.
  repeat (lapply H; [clear H; intros H | vm_compute; reflexivity]).
  destruct H as [_ H]. apply H. vm_compute. reflexivity.
Defined.

(** ** The payload, key by key *)

Lemma addProp_lookup key f prop d obj k :
  addProp key f prop d obj !! k
  = if String.eqb k key
    then (if included f prop d then Some prop else obj !! k)
    else obj !! k.
Proof.
  unfold addProp, included, GetOkExists. cbn [fst snd].
  destruct (String.eqb_spec k key) as [-> | Hne].
  - destruct (negb (isEmptyValue prop) && _); [apply lookup_insert_eq | reflexivity].
  - destruct (negb (isEmptyValue prop) && _); [ | reflexivity].
    apply lookup_insert_ne. congruence.
Qed.

Lemma included_scalar f d :
  included f (Get f d) d = snd (GetOkExists f d) && negb (isEmptyValue (Get f d)).
Proof.
  unfold included, GetOkExists. cbn [fst snd].
  rewrite DeepEqual_refl. cbn. rewrite orb_false_r. apply andb_comm.
Qed.

Ltac open_payload :=
  unfold addressPayload, andThen;
  unfold expandComputeAddressAddress at 1, expandComputeAddressAddressType at 1,
    expandComputeAddressDescription at 1, expandComputeAddressName at 1,
    expandComputeAddressNetworkTier at 1;
  destruct (expandComputeAddressSubnetwork (Get "subnetwork" _) _ _)
    as [subnetworkProp | | ] eqn:Hsub; try discriminate;
  destruct (expandComputeAddressRegion (Get "region" _) _ _)
    as [regionProp | | ] eqn:Hreg; try discriminate;
  let H := fresh "H" in
  intros H; inversion H; subst; clear H.

(** What the payload holds under the wire name of a field. *)
Lemma addressPayload_lookup d config obj :
  addressPayload d config = Ok obj ->
  forall key f expand, In (key, f, expand) payloadFields ->
    exists prop, expand (Get f d) d config = Ok prop /\
                 obj !! key = if included f prop d then Some prop else None.
Proof.
  open_payload.
  intros key f expand Hin. simpl in Hin.
  repeat (destruct Hin as [Heq | Hin]; [inversion Heq; subst; clear Heq | ]);
    try contradiction;
    eexists; (split; [first [eassumption | reflexivity] | ]);
    rewrite !addProp_lookup; cbn [String.eqb Ascii.eqb Bool.eqb];
    rewrite ?lookup_empty;
    match goal with |- context [included ?f ?p d] => destruct (included f p d) end;
    reflexivity.
Qed.

(** X10: the payload of Address Create, key by key.  Under the wire name of
    each of its seven fields the payload holds the expansion of the field
    exactly when that expansion is not empty and the field was set or differs
    from it, and it holds nothing under any other key: the fields that are
    only computed and the project are never sent.  For the five fields that
    expand to themselves this means: the stored value, exactly when the field
    was set and is not empty. *)
Theorem address_payload_exact d config obj :
  addressPayload d config = Ok obj ->
  (forall key f expand, In (key, f, expand) payloadFields ->
     exists prop, expand (Get f d) d config = Ok prop /\
                  obj !! key = if included f prop d then Some prop else None) /\
  (forall key, ~ In key (map (fun x => fst (fst x)) payloadFields) ->
     obj !! key = None) /\
  (forall key f, In (key, f) scalarPayloadFields ->
     obj !! key = if snd (GetOkExists f d) && negb (isEmptyValue (Get f d))
                  then Some (Get f d) else None).
Proof.
  intros Hobj. split; [exact (addressPayload_lookup d config obj Hobj) | ].
  revert Hobj. open_payload.
  split.
  - intros key Hkey. rewrite !addProp_lookup.
    repeat match goal with
           | |- context [String.eqb key ?k] =>
               destruct (String.eqb_spec key k) as [-> | _];
               [exfalso; apply Hkey; simpl; auto 10 | ]
           end.
    apply lookup_empty.
  - intros key f Hin. simpl in Hin.
    repeat (destruct Hin as [Heq | Hin]; [inversion Heq; subst; clear Heq | ]);
      try contradiction;
      rewrite !addProp_lookup; cbn [String.eqb Ascii.eqb Bool.eqb];
      rewrite ?lookup_empty, included_scalar;
      match goal with |- context [if ?c then _ else _] => destruct c end;
      reflexivity.
Qed.

Lemma address_payload_exact_witness :
  let obj : gmap string Value :=
    {[ "name" := VString "addr1"; "addressType" := VString "INTERNAL" ]} in
  obj !! "name" = Some (VString "addr1") /\ obj !! "description" = None /\
  obj !! "selfLink" = None.
Proof.
  intros obj.
  assert (Hobj : addressPayload internalAddress sampleConfig = Ok obj)
    by (vm_compute; reflexivity).
  destruct (address_payload_exact internalAddress sampleConfig obj Hobj)
    as (_ & Hother & Hscalar).
  split; [ | split].
  - apply (Hscalar "name" "name"). simpl. auto.
  - apply (Hscalar "description" "description"). simpl. auto.
  - apply Hother. simpl. intros H.
    repeat (destruct H as [H | H]; [discriminate H | ]). exact H.
Defined.

(** ** Import without the control plane *)

Lemma setFields_state fields : forall st,
  st_trace (snd (setFields fields st)) = st_trace st /\
  rd_schema (st_d (snd (setFields fields st))) = rd_schema (st_d st) /\
  rd_id (st_d (snd (setFields fields st))) = rd_id (st_d st).
Proof.
  induction fields as [ | [k v] rest IH]; intros st; [cbn; auto | ].
  cbn [setFields]. unfold bind, dSet.
  destruct (Set_ k (VString v) (st_d st)) as [d' | e | ] eqn:Hset; cbn; auto.
  destruct (IH {| st_d := d'; st_trace := st_trace st |}) as (Ht & Hs & Hi).
  cbn in Ht, Hs, Hi. apply Set_Ok in Hset as (Hs' & Hi' & _).
  rewrite Ht, Hs, Hi. auto.
Qed.

(** X15: Import works on the resource data alone.  It makes no remote call,
    keeps the schema, and returns, when it succeeds, exactly the one resource
    it was given; the only error it can return is "Error constructing id",
    and then the identity is still the import id. *)
Theorem address_import_is_local config d :
  let r := run (resourceComputeAddressImport config) d in
  trace r = [] /\
  rd_schema (final r) = rd_schema d /\
  (forall l, result r = Ok l -> l = [final r]) /\
  (forall e, result r = Err e ->
     Id (final r) = Id d /\ exists e', e = Errorf "Error constructing id: " e').
Proof.
  intros r. subst r.
  unfold resourceComputeAddressImport, discard, parseImportId, Id. unfold_m.
  destruct (resolveFields (rd_id d) addressImportFormats config) as [fields | e | ];
    cbn.
  - destruct (setFields_state fields {| st_d := d; st_trace := [] |})
      as (Ht & Hs & Hi). cbn in Ht, Hs, Hi.
    destruct (setFields fields {| st_d := d; st_trace := [] |}) as [res [d' t']].
    cbn in *. subst t'.
    destruct res as [[] | e | ]; cbn;
      try destruct (replaceVars d' config _) as [id_ | e' | ]; cbn.
    all: split; [reflexivity | split; [exact Hs | split]].
    all: intros x Hx; inversion Hx; subst.
    all: first [reflexivity | split; [exact Hi | eexists; reflexivity]].
  - destruct (replaceVars d config _) as [id_ | e' | ]; cbn.
    all: split; [reflexivity | split; [reflexivity | split]].
    all: intros x Hx; inversion Hx; subst.
    all: first [reflexivity | split; [reflexivity | eexists; reflexivity]].
  - split; [reflexivity | split; [reflexivity | split]];
      intros x Hx; discriminate Hx.
Qed.

Lemma address_import_is_local_witness :
  let r := run (resourceComputeAddressImport sampleConfig) (emptyAddress "a1") in
  match result r with Ok l => l | _ => [] end = [final r].
Proof.
  intros r.
  apply (proj1 (proj2 (proj2 (address_import_is_local sampleConfig (emptyAddress "a1"))))).
  vm_compute. reflexivity.
Defined.

(** ** The default of the address type *)

(** X18: what [flattenComputeAddressAddressType] returns is never nil and
    never the empty string, so never an empty value; and flattening it again
    changes nothing. *)
Theorem flatten_address_type_defaults v w :
  flattenComputeAddressAddressType v = Ok w ->
  (exists s, w = VString s /\ s <> "") /\
  isEmptyValue w = false /\
  flattenComputeAddressAddressType w = Ok w.
Proof.
  unfold flattenComputeAddressAddressType.
  assert (Hdefault : (exists s, VString "EXTERNAL" = VString s /\ s <> "") /\
                     isEmptyValue (VString "EXTERNAL") = false /\
                     Ok (VString "EXTERNAL") = Ok (VString "EXTERNAL")).
  { split; [exists "EXTERNAL"; split; [reflexivity | discriminate] | ].
    split; reflexivity. }
  destruct v as [ | s | | | ]; try discriminate.
  - intros H. inversion H. exact Hdefault.
  - destruct (String.eqb_spec s "") as [-> | Hne]; intros H; inversion H; subst.
    + exact Hdefault.
    + apply String.eqb_neq in Hne as Hne'. cbn. rewrite Hne'.
      split; [exists s; split; [reflexivity | assumption] | split; reflexivity].
Qed.

Lemma flatten_address_type_defaults_witness :
  flattenComputeAddressAddressType (VString "EXTERNAL") = Ok (VString "EXTERNAL").
Proof.
  exact (proj2 (proj2 (flatten_address_type_defaults VNil (VString "EXTERNAL") eq_refl))).
Defined.

(** ** Route Create, step by step *)

(** Case analysis on the goal alone. *)
Ltac gstep :=
  match goal with
  | |- context [match ?x with _ => _ end] => scrutinee x
  end; cbn.

Lemma noPoll_forallb evs :
  noPoll evs -> forallb (fun e => negb (isPoll e)) evs = true.
Proof.
  unfold noPoll. induction evs as [ | e evs IH]; intros H; [reflexivity | ].
  inversion H; subst. cbn. rewrite IH by assumption.
  match goal with Hp : isPoll e = false |- _ => rewrite Hp end. reflexivity.
Qed.

(** X1: Route Create never writes a field: on every outcome the attributes
    and the schema are as they were.  It touches the identity only after the
    insert was accepted: a run without a poll, because a lookup or the insert
    failed, leaves the resource data as it was and is not a success.  It
    inserts at most once and polls at most once. *)
Theorem route_create_touches_identity_only api config d :
  let r := run (resourceComputeRouteCreate api config) d in
  rd_attrs (final r) = rd_attrs d /\
  rd_schema (final r) = rd_schema d /\
  (noPoll (trace r) -> final r = d /\ result r <> Ok tt) /\
  (length (filter (fun e => isInsert e = true) (trace r)) <= 1)%nat /\
  (length (filter (fun e => isPoll e = true) (trace r)) <= 1)%nat.
Proof.
  intros r. subst r.
  unfold resourceComputeRouteCreate, resourceComputeRouteRead. unfold_m.
  repeat gstep.
  all: split; [reflexivity | split; [reflexivity | split; [ | split; cbn; lia]]].
  all: intros H; apply noPoll_forallb in H; cbn in H;
    first [discriminate H | split; [reflexivity | discriminate]].
Qed.

Lemma route_create_touches_identity_only_witness :
  let r := run (resourceComputeRouteCreate goneApi sampleConfig) sampleRoute in
  final r = sampleRoute /\ result r <> Ok tt.
Proof.
  intros r.
  apply (proj1 (proj2 (proj2 (route_create_touches_identity_only goneApi sampleConfig
                                sampleRoute)))).
  vm_compute. repeat constructor.
Defined.

Lemma assertString_Ok v s : assertString v = Ok s -> v = VString s.
Proof. unfold assertString. destruct v; intros H; inversion H; reflexivity. Qed.

Lemma assertInt_Ok v n : assertInt v = Ok n -> v = VInt n.
Proof. unfold assertInt. destruct v; intros H; inversion H; reflexivity. Qed.

Lemma assertSet_Ok v l : assertSet v = Ok l -> v = VList l.
Proof. unfold assertSet. destruct v; intros H; inversion H; reflexivity. Qed.

Lemma assertStrings_Ok l : forall r, assertStrings l = Ok r -> l = map VString r.
Proof.
  induction l as [ | v l IH]; intros r; cbn.
  - intros H. inversion H. reflexivity.
  - destruct (assertString v) as [s | | ] eqn:Hv; try discriminate.
    destruct (assertStrings l) as [r' | | ]; try discriminate.
    intros H. inversion H. cbn. rewrite (assertString_Ok _ _ Hv), (IH r' eq_refl).
    reflexivity.
Qed.

Ltac find_insert H :=
  simpl in H;
  repeat (destruct H as [H | H]; [try discriminate H | ]);
  try contradiction.

Ltac use_lookups :=
  repeat match goal with
         | H : GetOk ?k ?d = _ |- context [GetOk ?k ?d] => rewrite H
         end.

Ltac carried :=
  first
    [ reflexivity
    | apply assertString_Ok; eassumption
    | apply assertInt_Ok; eassumption
    | eassumption
    | match goal with
      | Hs : assertSet ?v = Ok ?l, Hl : assertStrings ?l = Ok _ |- ?v = VList _ =>
          rewrite (assertSet_Ok _ _ Hs), (assertStrings_Ok _ _ Hl); reflexivity
      end ].

(** X2: what Route Create asks the control plane to insert.  Any insert it
    makes is for the project of the configuration and carries the name, the
    destination range, the priority and the tags of the state, the self-link
    of the network it looked up, the next-hop address and gateway when they
    are set and the empty string otherwise, and as next-hop instance and
    network the self-links of the objects it looked up, or the empty string
    when the field is not set.  Without a next-hop instance no instance is
    looked up. *)
Theorem route_create_parameter api config d :
  let r := run (resourceComputeRouteCreate api config) d in
  forall project route,
    In (EvRoutesInsert project route) (trace r) ->
    project = Project config /\
    routeCarries api config d route /\
    (snd (GetOk "next_hop_instance" d) = false ->
     Forall (fun e => isInstancesGet e = false) (trace r)).
Proof.
  intros r. subst r.
  unfold resourceComputeRouteCreate, resourceComputeRouteRead. unfold_m.
  repeat gstep.
  all: intros project route Hin; find_insert Hin.
  all: inversion Hin; subst; clear Hin.
  all: split; [reflexivity | split].
  all: try (use_lookups; cbn; intros Hno; try discriminate Hno; repeat constructor).
  all: unfold routeCarries, sentWhenSet; use_lookups; cbn.
  all: repeat match goal with
              | |- _ /\ _ => split
              | |- exists _, _ => eexists
              end.
  all: carried.
Qed.

Lemma route_create_parameter_witness :
  routeCarries (routeApi Succeeded) sampleConfig sampleRoute sampleRouteParameter.
Proof.
  apply (route_create_parameter (routeApi Succeeded) sampleConfig sampleRoute
           "p1" sampleRouteParameter).
  vm_compute. auto 10.
Defined.

(** X3: how Route Create ends.  When it returns nil, the identity is the
    name of the route, the poll it made succeeded, and its last call read the
    route back under that name and found it.  When the poll succeeded but the
    read-back fails, Create returns "Error reading route" and the identity
    stays the name of the route: nothing is rolled back. *)
Theorem route_create_read_back api config d :
  let r := run (resourceComputeRouteCreate api config) d in
  let name := GetString "name" d in
  (result r = Ok tt ->
   Id (final r) = name /\
   last (trace r) = Some (EvRoutesGet (Project config) name) /\
   exists op route,
     In (EvPoll op) (trace r) /\ poll api op = Succeeded /\
     RoutesGet api (Project config) name = Ok route) /\
  (forall op e,
     In (EvPoll op) (trace r) -> poll api op = Succeeded ->
     RoutesGet api (Project config) name = Err e ->
     result r = Err (Errorf "Error reading route: " e) /\ Id (final r) = name).
Proof.
  intros r name. subst r name.
  unfold resourceComputeRouteCreate, resourceComputeRouteRead. unfold_m.
  repeat gstep.
  all: repeat match goal with
              | H : assertString (Get "name" _) = Ok _ |- _ =>
                  rewrite (assertString_GetString _ _ _ H); clear H
              end.
  all: split;
    [ intros Hok; try discriminate Hok
    | intros op' e' Hin Hpoll Hget; find_poll Hin; try (inversion Hin; subst);
      try congruence ].
  all: try (split; [reflexivity | split; [reflexivity | ]];
            do 2 eexists; split; [ | split; eassumption]; simpl; auto 10).
  all: split; [congruence | reflexivity].
Qed.

Lemma route_create_read_back_witness :
  Id (final (run (resourceComputeRouteCreate (routeApi Succeeded) sampleConfig)
                 sampleRoute)) = "route1".
Proof.
  apply (proj1 (route_create_read_back (routeApi Succeeded) sampleConfig sampleRoute)).
  vm_compute. reflexivity.
Defined.

(** ** When Address Read succeeds *)

Lemma replaceVars_addressUrl_project d config url :
  replaceVars d config addressUrl = Ok url -> exists p, getProject d config = Ok p.
Proof.
  unfold replaceVars, addressUrl. cbn.
  destruct (getProject d config) as [p | e | ]; [eauto | discriminate | discriminate].
Qed.

Lemma fits_string s v :
  Type_ s = TypeString -> nilOrString v = true -> fits s v = true.
Proof. unfold fits. intros ->. destruct v; cbn; congruence. Qed.

Lemma flatten_nilOrString fl v w :
  In fl [flattenComputeAddressAddressType; flattenComputeAddressSubnetwork;
         flattenComputeAddressRegion] ->
  nilOrString v = true -> fl v = Ok w -> nilOrString w = true.
Proof.
  intros Hin Hv. simpl in Hin.
  destruct Hin as [<- | [<- | [<- | []]]];
    unfold flattenComputeAddressAddressType, flattenComputeAddressSubnetwork,
      flattenComputeAddressRegion, NameFromSelfLinkStateFunc, assertString;
    destruct v as [ | s | | | ]; try discriminate Hv;
    try destruct (String.eqb s ""); intros H; inversion H; reflexivity.
Qed.

Lemma flatten_nilOrString_ok fl v :
  In fl [flattenComputeAddressAddressType; flattenComputeAddressSubnetwork;
         flattenComputeAddressRegion] ->
  nilOrString v = true -> exists w, fl v = Ok w.
Proof.
  intros Hin Hv. simpl in Hin.
  destruct Hin as [<- | [<- | [<- | []]]];
    unfold flattenComputeAddressAddressType, flattenComputeAddressSubnetwork,
      flattenComputeAddressRegion, NameFromSelfLinkStateFunc, assertString;
    destruct v as [ | s | | | ]; try discriminate Hv;
    try destruct (String.eqb s ""); eauto.
Qed.

Lemma fits_strings s v :
  Type_ s = TypeList -> nilOrStrings v = true -> fits s v = true.
Proof. unfold fits. intros ->. destruct v; cbn; congruence. Qed.

Ltac fits_here Hstr Husers :=
  first
    [ reflexivity
    | apply fits_strings; [reflexivity | exact Husers]
    | apply fits_string; [reflexivity | apply Hstr; simpl; auto 10]
    | apply fits_string;
      [ reflexivity
      | eapply flatten_nilOrString;
        [ | | eassumption ]; [simpl; auto | apply Hstr; simpl; auto 10] ] ].

Ltac accepted Hschema Hstr Husers :=
  match goal with
  | H : Set_ ?k ?v ?di = Err _ |- _ =>
      exfalso; unfold Set_ in H;
      repeat match goal with
             | E : Set_ _ _ _ = Ok ?y |- _ =>
                 rewrite (Set_schema _ _ _ _ E) in H
             end;
      rewrite Hschema in H; cbn in H;
      first
        [ discriminate H
        | match type of H with
          | context [fits ?S v] =>
              let Hfit := fresh "Hfit" in
              assert (Hfit : fits S v = true) by fits_here Hstr Husers;
              rewrite Hfit in H; discriminate H
          end ]
  | H : Set_ ?k ?v ?di = Panic |- _ =>
      exfalso; unfold Set_ in H;
      destruct (lookupSchema k (rd_schema di)) as [s | ]; [ | discriminate H];
      destruct (fits s v); discriminate H
  end.

(** X13: Address Read succeeds on every answer of the documented shape.  On
    a resource with the address schema, when the object is fetched and holds
    strings (or nothing) under its string fields, a list of strings (or
    nothing) under [users] and a string under [selfLink], no flatten function
    panics, the framework accepts every field, and Read returns nil. *)
Theorem address_read_succeeds api config d res :
  rd_schema d = addressSchema ->
  addressFetched api config d = Some res ->
  wellTypedAnswer res ->
  result (run (resourceComputeAddressRead api config) d) = Ok tt.
Proof.
  intros Hschema Hf (Hstr & Husers & Hself). unfold addressFetched in Hf.
  destruct (replaceVars d config addressUrl) as [url | | ] eqn:Hurl;
    try discriminate Hf.
  destruct (sendRequest api "GET" url None) as [res' | | ] eqn:Hsend;
    try discriminate Hf.
  inversion Hf; subst res'; clear Hf.
  destruct (replaceVars_addressUrl_project d config url Hurl) as [p Hp].
  unfold resourceComputeAddressRead, dSet. unfold_m.
  rewrite Hurl. cbn. rewrite Hsend. cbn.
  repeat gstep;
    try reflexivity;
    try solve [accepted Hschema Hstr Husers];
    try match goal with
        | H : assertString (field "selfLink" res) = _ |- _ =>
            exfalso; unfold assertString in H;
            destruct (field "selfLink" res); discriminate
        end;
    try match goal with
        | H : ?fl (field ?w res) = _ |- _ =>
            exfalso;
            destruct (flatten_nilOrString_ok fl (field w res)
                        ltac:(simpl; auto) ltac:(apply Hstr; simpl; auto 10))
              as [w' Hw']; congruence
        end;
    exfalso;
    match goal with
    | H : getProject ?d' config = _ |- _ =>
        rewrite (getProject_ext d d' config) in H;
        [ congruence
        | repeat (erewrite Set_schema by eassumption); reflexivity
        | lookups; reflexivity ]
    end.
Qed.

Lemma address_read_succeeds_witness :
  result (run (resourceComputeAddressRead
                 (addressApi Succeeded
                    {[ "name" := VString "addr1"; "addressType" := VString "INTERNAL";
                       "users" := VList [VString "instance-1"];
                       "selfLink" := VString "x" ]})
                 sampleConfig) sampleAddress) = Ok tt.
Proof.
  apply (address_read_succeeds _ _ _
           {[ "name" := VString "addr1"; "addressType" := VString "INTERNAL";
              "users" := VList [VString "instance-1"];
              "selfLink" := VString "x" ]}).
  - reflexivity.
  - vm_compute. reflexivity.
  - split; [ | split; vm_compute; reflexivity].
    intros w Hw. simpl in Hw.
    repeat (destruct Hw as [<- | Hw]; [vm_compute; reflexivity | ]).
    contradiction.
Defined.

(** ** References that are not given *)

(** X11: a subnetwork or a region that is not given is not sent.  Whatever
    else the state holds, when the field reads as the empty string its
    expansion is empty and the payload has nothing under its key. *)
Theorem empty_references_not_sent d config obj :
  addressPayload d config = Ok obj ->
  (Get "subnetwork" d = VString "" -> obj !! "subnetwork" = None) /\
  (Get "region" d = VString "" -> obj !! "region" = None).
Proof.
  intros Hobj.
  pose proof (addressPayload_lookup d config obj Hobj) as Hfields.
  split; intros Hempty.
  - destruct (Hfields "subnetwork" "subnetwork" expandComputeAddressSubnetwork
                ltac:(simpl; auto 10)) as (prop & Hexp & ->).
    rewrite Hempty in Hexp. cbn in Hexp. inversion Hexp. reflexivity.
  - destruct (Hfields "region" "region" expandComputeAddressRegion
                ltac:(simpl; auto 10)) as (prop & Hexp & ->).
    rewrite Hempty in Hexp. cbn in Hexp. inversion Hexp. reflexivity.
Qed.

Lemma empty_references_not_sent_witness :
  let obj : gmap string Value :=
    {[ "name" := VString "addr1"; "addressType" := VString "INTERNAL" ]} in
  obj !! "subnetwork" = None.
Proof.
  intros obj.
  apply (proj1 (empty_references_not_sent internalAddress sampleConfig obj
                  ltac:(vm_compute; reflexivity))).
  reflexivity.
Defined.

(** ** Import of the ids the formats describe *)

Lemma hasSlash_app a b : hasSlash (a +:+ b) = hasSlash a || hasSlash b.
Proof.
  induction a as [ | c a IH]; cbn; [reflexivity | ].
  rewrite IH. apply orb_assoc.
Qed.

(** On a run of characters without [/] that ends the id or is followed by
    [/], a group takes the whole run. *)
Lemma capture_run k n v : forall acc rest fs,
  hasSlash v = false ->
  (rest = "" \/ exists rest', rest = String "/" rest') ->
  acc +:+ v <> "" ->
  k rest = Some fs ->
  capture k n acc (v +:+ rest) = Some ((n, acc +:+ v) :: fs).
Proof.
  induction v as [ | c v IH]; intros acc rest fs Hv Hrest Hne Hk.
  - rewrite append_empty_r in *. apply String.eqb_neq in Hne. cbn [String.append].
    destruct Hrest as [-> | [rest' ->]]; cbn; rewrite Hne, Hk; reflexivity.
  - cbn in Hv. apply orb_false_iff in Hv as [Hc Hv].
    cbn [String.append capture]. rewrite Hc.
    rewrite (IH (acc +:+ String c "") rest fs Hv Hrest); [ | | exact Hk].
    + rewrite append_snoc. reflexivity.
    + rewrite append_snoc. exact Hne.
Qed.

Lemma render_has_slash ts : forall fields s,
  render ts fields = Some s -> In (TChar "/") ts -> hasSlash s = true.
Proof.
  induction ts as [ | [c | n] ts IH]; intros fields s Hr Hin; cbn in *.
  - contradiction.
  - destruct (render ts fields) as [s' | ] eqn:Hs'; [ | discriminate].
    inversion Hr; subst s. cbn.
    destruct Hin as [Heq | Hin].
    + inversion Heq. reflexivity.
    + rewrite (IH fields s' Hs' Hin). apply orb_true_r.
  - destruct fields as [ | [n' v] fs]; [discriminate | ].
    destruct (String.eqb n n'); [ | discriminate].
    destruct (render ts fs) as [s' | ] eqn:Hs'; [ | discriminate].
    inversion Hr; subst s.
    destruct Hin as [Heq | Hin]; [discriminate Heq | ].
    rewrite hasSlash_app, (IH fs s' Hs' Hin). apply orb_true_r.
Qed.

(** A format with a [/] in it does not match an id without one. *)
Lemma no_slash_no_match ts n :
  In (TChar "/") ts -> hasSlash n = false -> matchToks ts n = None.
Proof.
  intros Hin Hn. destruct (matchToks ts n) as [fields | ] eqn:Hm; [ | reflexivity].
  apply matchToks_render in Hm. apply render_has_slash in Hm; [congruence | exact Hin].
Qed.

Lemma countSlash_app a b : countSlash (a +:+ b) = (countSlash a + countSlash b)%nat.
Proof.
  induction a as [ | c a IH]; cbn; [reflexivity | ].
  rewrite IH. lia.
Qed.

Lemma countSlash_segment s : hasSlash s = false -> countSlash s = 0%nat.
Proof.
  induction s as [ | c s IH]; cbn; [reflexivity | ].
  intros H. apply orb_false_iff in H as [-> Hs]. rewrite (IH Hs). reflexivity.
Qed.

Lemma render_slashes ts : forall fields s,
  render ts fields = Some s -> (slashesOf ts <= countSlash s)%nat.
Proof.
  induction ts as [ | [c | g] ts IH]; intros fields s Hr; cbn in *.
  - lia.
  - destruct (render ts fields) as [s' | ] eqn:Hs'; [ | discriminate].
    inversion Hr; subst s. cbn. specialize (IH fields s' Hs'). lia.
  - destruct fields as [ | [g' v] fs]; [discriminate | ].
    destruct (String.eqb g g'); [ | discriminate].
    destruct (render ts fs) as [s' | ] eqn:Hs'; [ | discriminate].
    inversion Hr; subst s. rewrite countSlash_app. specialize (IH fs s' Hs'). lia.
Qed.

(** A format does not match an id with fewer [/] than it spells out. *)
Lemma few_slashes_no_match ts s :
  (countSlash s < slashesOf ts)%nat -> matchToks ts s = None.
Proof.
  intros Hlt. destruct (matchToks ts s) as [fields | ] eqn:Hm; [ | reflexivity].
  apply matchToks_render, render_slashes in Hm. lia.
Qed.

Lemma matchToks_char c ts s : matchToks (TChar c :: ts) (String c s) = matchToks ts s.
Proof. cbn. rewrite Ascii.eqb_refl. reflexivity. Qed.

Lemma matchToks_group g ts v rest fs :
  segment v ->
  (exists rest', rest = String "/" rest') ->
  matchToks ts rest = Some fs ->
  matchToks (TGroup g :: ts) (v +:+ rest) = Some ((g, v) :: fs).
Proof.
  intros [Hne Hv] Hrest Hk. cbn [matchToks].
  apply (capture_run (matchToks ts) g v "" rest fs); auto.
Qed.

Lemma matchToks_last_group g v :
  segment v -> matchToks [TGroup g] v = Some [(g, v)].
Proof.
  intros [Hne Hv]. cbn [matchToks].
  pose proof (capture_run (matchToks []) g v "" "" [] Hv (or_introl eq_refl)) as H.
  rewrite append_empty_r in H. apply H; [exact Hne | reflexivity].
Qed.

(** The compiled formats of the address importer. *)
Ltac compile_formats :=
  repeat match goal with
         | |- context [compile 0 None ?f] =>
             let c := eval vm_compute in (compile 0 None f) in
             change (compile 0 None f) with c
         end.

Ltac match_segments :=
  match goal with
  | |- match matchToks ?ts ?s with _ => _ end = Ok (Some ?fs) =>
      let Hm := fresh "Hm" in
      assert (Hm : matchToks ts s = Some fs);
      [ repeat first
          [ rewrite matchToks_char
          | apply matchToks_last_group; assumption
          | apply matchToks_group; [assumption | eexists; reflexivity | ] ]
      | rewrite Hm; reflexivity ]
  end.

Lemma qualified_fields p r n importId :
  segment p -> segment r -> segment n ->
  In importId (qualifiedIds p r n) ->
  firstMatch addressImportFormats importId
  = Ok (Some [("project", p); ("region", r); ("name", n)]).
Proof.
  intros Hp Hr Hn [<- | [<- | []]];
    unfold addressImportFormats; cbn [firstMatch]; unfold matchFormat; compile_formats;
    cbv iota.
  - cbn [String.append]. match_segments.
  - rewrite few_slashes_no_match.
    + match_segments.
    + rewrite !countSlash_app, (countSlash_segment p), (countSlash_segment r),
        (countSlash_segment n) by (apply Hp || apply Hr || apply Hn).
      cbn. lia.
Qed.

Lemma bare_name_fields n :
  segment n ->
  firstMatch addressImportFormats n = Ok (Some [("name", n)]).
Proof.
  intros Hn.
  unfold addressImportFormats; cbn [firstMatch]; unfold matchFormat; compile_formats;
    cbv iota.
  rewrite !few_slashes_no_match
    by (rewrite (countSlash_segment n) by apply Hn; cbn; lia).
  match_segments.
Qed.

Lemma Set_identity_field k v d :
  rd_schema d = addressSchema ->
  In k ["project"; "region"; "name"] ->
  Set_ k (VString v) d
  = Ok {| rd_schema := rd_schema d;
          rd_attrs := <[k := VString v]> (rd_attrs d);
          rd_id := rd_id d |}.
Proof.
  intros Hs Hk. unfold Set_. rewrite Hs.
  destruct Hk as [<- | [<- | [<- | []]]]; reflexivity.
Qed.

(** The identity of an address whose three identity fields are set. *)
Lemma replaceVars_identity d config p r n :
  rd_attrs d !! "project" = Some (VString p) ->
  rd_attrs d !! "region" = Some (VString r) ->
  rd_attrs d !! "name" = Some (VString n) ->
  p <> "" -> r <> "" -> n <> "" ->
  replaceVars d config idTemplate = Ok (p +:+ "/" +:+ lastSegment r +:+ "/" +:+ n).
Proof.
  intros Hp Hr Hn Hpe Hre Hne.
  apply String.eqb_neq in Hpe, Hre, Hne.
  unfold replaceVars, idTemplate. cbn [substitute String.eqb Ascii.eqb Bool.eqb String.append].
  unfold getProject, getRegion, GetOk, Get. rewrite Hp, Hr, Hn. cbn [isZero negb].
  rewrite Hpe, Hre, Hne. cbn [negb]. rewrite append_empty_r. reflexivity.
Qed.

Lemma lastSegment_segment s : hasSlash s = false -> lastSegment s = s.
Proof. intros H. unfold lastSegment. rewrite (splitSlash_short s H). reflexivity. Qed.

Ltac inserted :=
  repeat first [apply lookup_insert_eq | rewrite lookup_insert_ne by discriminate].

(** ** Import of the ids the formats describe *)

(** X16: an id written after one of the two qualified formats imports to
    the same state whatever the ambient defaults are: the three identity
    fields take the segments of the id, nothing else changes, and the identity
    becomes [project/region/name]. *)
Theorem address_import_qualified config d p r n :
  segment p -> segment r -> segment n ->
  rd_schema d = addressSchema ->
  In (Id d) (qualifiedIds p r n) ->
  let st := run (resourceComputeAddressImport config) d in
  result st = Ok [final st] /\
  Id (final st) = p +:+ "/" +:+ r +:+ "/" +:+ n /\
  rd_attrs (final st)
  = <["name" := VString n]>
      (<["region" := VString r]> (<["project" := VString p]> (rd_attrs d))).
Proof.
  intros Hp Hr Hn Hs Hid st. subst st.
  unfold run, result, final, resourceComputeAddressImport, discard, parseImportId,
    bind, data, try, modify, ret, resolveFields.
  cbn [st_d st_trace].
  rewrite (qualified_fields p r n (Id d) Hp Hr Hn Hid).
  change (ambientDefaults config [("project", p); ("region", r); ("name", n)])
    with (@nil (string * string)).
  cbn [app setFields]. unfold dSet, bind, ret. cbn [st_d st_trace].
  rewrite Set_identity_field by (simpl; auto).
  cbn [st_d st_trace].
  rewrite Set_identity_field by (simpl; auto).
  cbn [st_d st_trace rd_schema].
  rewrite Set_identity_field by (simpl; auto).
  cbn [st_d st_trace fst snd rd_schema rd_attrs rd_id].
  change "{{project}}/{{region}}/{{name}}" with idTemplate.
  rewrite (replaceVars_identity _ config p r n);
    try solve [apply Hp | apply Hr | apply Hn | cbn [rd_attrs]; inserted].
  rewrite (lastSegment_segment r) by apply Hr.
  cbn. auto.
Qed.

Lemma address_import_qualified_witness :
  let st := run (resourceComputeAddressImport sampleConfig) (emptyAddress "p2/r2/a1") in
  result st = Ok [final st] /\
  Id (final st) = "p2/r2/a1" /\
  rd_attrs (final st)
  = <["name" := VString "a1"]>
      (<["region" := VString "r2"]> (<["project" := VString "p2"]> ∅)).
Proof.
  apply (address_import_qualified sampleConfig (emptyAddress "p2/r2/a1") "p2" "r2" "a1").
  - split; [discriminate | reflexivity].
  - split; [discriminate | reflexivity].
  - split; [discriminate | reflexivity].
  - reflexivity.
  - right. left. reflexivity.
Defined.

Ltac seed_fields :=
  cbn [app setFields]; unfold dSet, bind, ret; cbn [st_d st_trace];
  repeat (rewrite Set_identity_field by (simpl; auto);
          cbn [st_d st_trace rd_schema]);
  cbn [st_d st_trace fst snd rd_schema rd_attrs rd_id].

Lemma replaceVars_no_project d config :
  rd_attrs d !! "project" = None ->
  Project config = "" ->
  replaceVars d config idTemplate
  = Err (ErrorString "project: required field is not set").
Proof.
  intros Hnone Hp.
  unfold replaceVars, idTemplate. cbn [substitute String.eqb Ascii.eqb Bool.eqb String.append].
  unfold getProject, GetOk, Get. rewrite Hnone, Hp.
  destruct (lookupSchema "project" (rd_schema d)) as [s | ];
    [destruct (Default s) as [[ | ? | | | ] | ]; [ | | | | | destruct (zeroValue (Type_ s))] | ];
    reflexivity.
Qed.

(** X17: import of a bare name.  The name is stored; when the configuration
    has a project and a region they are stored with it and the identity
    becomes [project/region/name]; when the configuration has no project and
    the state has none either, the import fails with "Error constructing id"
    and the identity stays the bare name. *)
Theorem address_import_bare_name config d n :
  segment n ->
  rd_schema d = addressSchema ->
  Id d = n ->
  let st := run (resourceComputeAddressImport config) d in
  rd_attrs (final st) !! "name" = Some (VString n) /\
  (Project config <> "" -> Region config <> "" ->
   result st = Ok [final st] /\
   Id (final st) = Project config +:+ "/" +:+ lastSegment (Region config) +:+ "/" +:+ n /\
   rd_attrs (final st)
   = <["region" := VString (Region config)]>
       (<["project" := VString (Project config)]>
          (<["name" := VString n]> (rd_attrs d)))) /\
  (Project config = "" -> rd_attrs d !! "project" = None ->
   result st
   = Err (Errorf "Error constructing id: "
            (ErrorString "project: required field is not set")) /\
   Id (final st) = n).
Proof.
  intros Hn Hs Hid st. subst st.
  unfold run, result, final, resourceComputeAddressImport, discard, parseImportId,
    bind, data, try, modify, ret, resolveFields.
  cbn [st_d st_trace]. rewrite Hid, (bare_name_fields n Hn).
  unfold ambientDefaults, bound. cbn [existsb fst String.eqb Ascii.eqb Bool.eqb orb negb andb].
  destruct (String.eqb_spec (Project config) "") as [Hp | Hp];
    destruct (String.eqb_spec (Region config) "") as [Hr | Hr];
    cbn [negb app]; seed_fields.
  all: change "{{project}}/{{region}}/{{name}}" with idTemplate.
  all: split;
    [ match goal with
      | |- context [replaceVars ?d' ?c ?t] => destruct (replaceVars d' c t)
      end; cbn; inserted
    | split ].
  all: try (intros Hp' Hr'; congruence).
  - intros _ Hnone. rewrite replaceVars_no_project; [cbn; auto | | exact Hp].
    cbn [rd_attrs]. rewrite !lookup_insert_ne by discriminate. exact Hnone.
  - intros _ Hnone. rewrite replaceVars_no_project; [cbn; auto | | exact Hp].
    cbn [rd_attrs]. rewrite !lookup_insert_ne by discriminate. exact Hnone.
  - intros _ _.
    rewrite (replaceVars_identity _ config (Project config) (Region config) n);
      [cbn; auto | cbn [rd_attrs]; inserted .. | exact Hp | exact Hr | apply Hn].
Qed.

Lemma address_import_bare_name_witness :
  let st := run (resourceComputeAddressImport sampleConfig) (emptyAddress "a1") in
  result st = Ok [final st] /\
  Id (final st) = "p1/r1/a1" /\
  rd_attrs (final st)
  = <["region" := VString "r1"]>
      (<["project" := VString "p1"]> (<["name" := VString "a1"]> ∅)).
Proof.
  apply (address_import_bare_name sampleConfig (emptyAddress "a1") "a1").
  - split; [discriminate | reflexivity].
  - reflexivity.
  - reflexivity.
  - discriminate.
  - discriminate.
Defined.

(** ** The region read back *)

Lemma lastSegment_short s : hasSlash (lastSegment s) = false.
Proof.
  unfold lastSegment. pose proof (splitSlash_segments s) as H.
  induction H as [ | x l Hx Hl IH]; [reflexivity | ].
  destruct l as [ | y l]; [exact Hx | exact IH].
Qed.

(** X19: [flattenComputeAddressRegion] never returns an error.  On nil it
    returns nil; on a string it returns a short name, a string without [/],
    which flattening again leaves as it is; on any other value it panics. *)
Theorem flatten_region_short_name v :
  match flattenComputeAddressRegion v with
  | Ok w =>
      (v = VNil /\ w = VNil \/
       exists s, v = VString s /\ w = VString (lastSegment s) /\
                 hasSlash (lastSegment s) = false) /\
      flattenComputeAddressRegion w = Ok w
  | Err _ => False
  | Panic => nilOrString v = false
  end.
Proof.
  unfold flattenComputeAddressRegion, NameFromSelfLinkStateFunc, assertString.
  destruct v as [ | s | | | ]; cbn; try reflexivity.
  - split; [left; split; reflexivity | reflexivity].
  - split.
    + right. exists s. split; [reflexivity | split; [reflexivity | apply lastSegment_short]].
    + rewrite (lastSegment_segment (lastSegment s) (lastSegment_short s)). reflexivity.
Qed.
